(** * Cipher.mjs: the password-protected key envelope

    A shallow embedding of [resources/js/Cipher.mjs] and a verification of
    the properties its specification states about [generate], [export] and
    [import].

    The class [Cipher] calls three collaborators that are not part of the
    file: [Password] (Password.mjs), [base16] (Util/base16.mjs) and the host's
    [crypto] object (Web Cryptography API).  They are an interface here
    ([Collaborators]); what the specification assumes of them is stated as
    separate law classes, and a small concrete instance ([Toy]) shows that
    the laws can be met and lets every theorem be run on concrete inputs. *)

From Stdlib Require Import NArith List String Ascii Bool Lia.
From Stdlib.Strings Require Import Byte.
From stdpp Require Import base tactics option list strings.

Local Open Scope string_scope.
Local Open Scope list_scope.

(** ** Data *)

(** A [Uint8Array] / [ArrayBuffer]: a sequence of octets. *)
Abbreviation bytes := (list byte).

#[global] Instance byte_eq_decision : EqDecision byte := Byte.byte_eq_dec.

(** The settled state of a call: a value, or the value that was thrown
    (for a promise: fulfilled, or rejected with a reason). *)
Inductive Result (E A : Type) : Type :=
| Ok (a : A)
| Err (e : E).
Arguments Ok {E A} a.
Arguments Err {E A} e.

(** [{ name, modulusLength, publicExponent, hash }], the first argument of
    [crypto.subtle.generateKey]. *)
Module KeyGen.
Record t := mk {
  name : string;
  modulusLength : N;
  publicExponent : bytes;
  hash : string
}.
End KeyGen.

(** [{ name, hash }], the third argument of [crypto.subtle.importKey]. *)
Module ImportAlg.
Record t := mk {
  name : string;
  hash : string
}.
End ImportAlg.

(** The [CryptoKeyPair] that [generateKey] resolves to. *)
Module KeyPair.
Record t (K : Type) := mk {
  privateKey : K;
  publicKey : K
}.
Arguments mk {K} _ _.
Arguments privateKey {K} _.
Arguments publicKey {K} _.
End KeyPair.

(** The exported record [{ k, p, s }]. *)
Module Rec.
Record t := mk {
  k : string;
  p : string;
  s : string
}.
End Rec.

(** [publicExponent] is a big-endian unsigned integer. *)
Definition be_to_N (bs : bytes) : N :=
  fold_left (fun acc b => (acc * 256 + Byte.to_N b)%N) bs 0%N.

(** ** The collaborators *)

(** [recall], [wrap], [getRandomValues], [generateKey] and [encrypt] read
    and change the world (the remembered password, the entropy they draw);
    [unwrap], [exportKey], [importKey], [decrypt] and the codec are
    functions of their arguments. *)
Class Collaborators := {
  (** everything outside the program that calls can read or change: the
      remembered password, the entropy source, the key store of the host *)
  World : Type;
  (** the values that are thrown or that promises reject with *)
  Error : Type;
  (** the host's opaque [CryptoKey] handles and their readable attributes *)
  CryptoKey : Type;
  key_type : CryptoKey -> string;
  key_extractable : CryptoKey -> bool;
  key_algorithm : CryptoKey -> ImportAlg.t;
  key_usages : CryptoKey -> list string;
  (** instances of the class [Password] *)
  Password : Type;
  (** thrown by the runtime when a property of [undefined] is read *)
  TypeError : Error;

  (** Util/base16.mjs *)
  base16_encode : bytes -> string;
  base16_decode : string -> Result Error bytes;

  (** Password.mjs: the static [recall] and the methods [wrap], [unwrap] *)
  Password_recall : World -> Result Error Password * World;
  Password_wrap :
    Password -> CryptoKey -> bytes -> World -> Result Error bytes * World;
  Password_unwrap : Password -> bytes -> bytes -> Result Error CryptoKey;

  (** the host: [crypto.getRandomValues] on a fresh [Uint8Array(n)] and
      [crypto.subtle] *)
  crypto_getRandomValues : nat -> World -> Result Error bytes * World;
  subtle_generateKey :
    KeyGen.t -> bool -> list string -> World ->
    Result Error (KeyPair.t CryptoKey) * World;
  subtle_exportKey : string -> CryptoKey -> Result Error bytes;
  subtle_importKey :
    string -> bytes -> ImportAlg.t -> bool -> list string ->
    Result Error CryptoKey;
  subtle_encrypt : CryptoKey -> bytes -> World -> Result Error bytes * World;
  subtle_decrypt : CryptoKey -> bytes -> Result Error bytes;

  (** which of two rejected promises [Promise.all] sees first *)
  first_rejects_first : World -> bool
}.

(** ** The program state and its monad *)

Section Program.
Context {C : Collaborators}.

(** An instance of [Cipher]: the three fields the constructor assigns. *)
Record Cipher := mkCipher {
  privateKey : CryptoKey;
  publicKey : CryptoKey;
  salt : bytes
}.

(** A reference to an instance: its allocation index. *)
Definition ref := nat.

Record State := mkState {
  world : World;
  heap : list Cipher
}.

(** The calls that leave the program, with their arguments. *)
Inductive Event :=
| EvRecall
| EvWrap (password : Password) (key : CryptoKey) (salt : bytes)
| EvUnwrap (password : Password) (wrapped : bytes) (salt : bytes)
| EvGetRandomValues (n : nat)
| EvGenerateKey (alg : KeyGen.t) (extractable : bool) (usages : list string)
| EvExportKey (format : string) (key : CryptoKey)
| EvImportKey (format : string) (data : bytes) (alg : ImportAlg.t)
    (extractable : bool) (usages : list string)
| EvEncode (data : bytes)
| EvDecode (text : string).

(** A computation: from a state to a settled result, the state it leaves,
    and the calls it made, in order. *)
Definition M (A : Type) : Type :=
  State -> Result Error A * State * list Event.

Definition ret {A} (a : A) : M A := fun st => (Ok a, st, []).

Definition throw {A} (e : Error) : M A := fun st => (Err e, st, []).

Definition bind {A B} (m : M A) (f : A -> M B) : M B :=
  fun st =>
    match m st with
    | (Ok a, st1, t1) =>
        match f a st1 with
        | (r, st2, t2) => (r, st2, t1 ++ t2)
        end
    | (Err e, st1, t1) => (Err e, st1, t1)
    end.

End Program.

Notation "'let*' x := m 'in' f" := (bind m (fun x => f))
  (at level 10, x pattern, m at level 100, f at level 200).

Section Calls.
Context {C : Collaborators}.

(** A promise in this model is already settled when the call returns: the
    call has had its effect on the world, and [await] only looks at the
    outcome. *)
Definition Promise (A : Type) : Type := Result Error A.

Definition await {A} (p : Promise A) : M A :=
  match p with
  | Ok a => ret a
  | Err e => throw e
  end.

(** [Promise.all([a, b])]: fulfilled with both values, rejected with the
    reason of the promise that rejects first. *)
Definition Promise_all2 {A B} (a : Promise A) (b : Promise B) : M (A * B) :=
  match a, b with
  | Ok x, Ok y => ret (x, y)
  | Err e, Ok _ => throw e
  | Ok _, Err e => throw e
  | Err e1, Err e2 =>
      fun st => if first_rejects_first (world st)
                then throw e1 st else throw e2 st
  end.

(** [x ??= m]: [m] runs only when [x] is [null] or [undefined]. *)
Definition nullish_assign {A} (x : option A) (m : M A) : M A :=
  match x with
  | Some a => ret a
  | None => m
  end.

(** a call that changes the world and returns a promise *)
Definition async_call {A} (ev : Event)
    (f : World -> Result Error A * World) : M (Promise A) :=
  fun st =>
    match f (world st) with
    | (r, w) => (Ok r, mkState w (heap st), [ev])
    end.

(** a call that only computes and returns a promise *)
Definition async_pure {A} (ev : Event) (r : Result Error A) : M (Promise A) :=
  fun st => (Ok r, st, [ev]).

(** a call that returns or throws at once *)
Definition sync_pure {A} (ev : Event) (r : Result Error A) : M A :=
  fun st => (r, st, [ev]).

Definition recall : M (Promise Password) :=
  async_call EvRecall Password_recall.

Definition wrap (password : Password) (key : CryptoKey) (salt : bytes)
  : M (Promise bytes) :=
  async_call (EvWrap password key salt) (Password_wrap password key salt).

Definition unwrap (password : Password) (wrapped salt : bytes)
  : M (Promise CryptoKey) :=
  async_pure (EvUnwrap password wrapped salt)
             (Password_unwrap password wrapped salt).

Definition getRandomValues (n : nat) : M bytes :=
  fun st =>
    match crypto_getRandomValues n (world st) with
    | (r, w) => (r, mkState w (heap st), [EvGetRandomValues n])
    end.

Definition generateKey (alg : KeyGen.t) (extractable : bool)
    (usages : list string) : M (Promise (KeyPair.t CryptoKey)) :=
  async_call (EvGenerateKey alg extractable usages)
             (subtle_generateKey alg extractable usages).

Definition exportKey (format : string) (key : CryptoKey)
  : M (Promise bytes) :=
  async_pure (EvExportKey format key) (subtle_exportKey format key).

Definition importKey (format : string) (data : bytes) (alg : ImportAlg.t)
    (extractable : bool) (usages : list string) : M (Promise CryptoKey) :=
  async_pure (EvImportKey format data alg extractable usages)
             (subtle_importKey format data alg extractable usages).

Definition encode (data : bytes) : M string :=
  sync_pure (EvEncode data) (Ok (base16_encode data)).

Definition decode (text : string) : M bytes :=
  sync_pure (EvDecode text) (base16_decode text).

(** [this.f]: a read of a field of the instance [this] refers to. *)
Definition get {A} (this : ref) (f : Cipher -> A) : M A :=
  fun st =>
    match heap st !! this with
    | Some o => (Ok (f o), st, [])
    | None => (Err TypeError, st, [])
    end.

(** ** The class [Cipher] *)

(** [constructor({ privateKey, publicKey, salt })]: the new instance gets
    its three fields and is returned by [new]. *)
Definition constructor (privateKey publicKey : CryptoKey) (salt : bytes)
  : M ref :=
  fun st =>
    (Ok (length (heap st)),
     mkState (world st) (heap st ++ [mkCipher privateKey publicKey salt]),
     []).

(** [async export(password = null)] *)
Definition export (this : ref) (password : option Password) : M Rec.t :=
  let* password := nullish_assign password (let* r := recall in await r) in
  let* privateKey_ := get this privateKey in
  let* salt_ := get this salt in
  let* wrappedPrivateKey := wrap password privateKey_ salt_ in
  let* publicKey_ := get this publicKey in
  let* exportedPublicKey := exportKey "spki" publicKey_ in
  let* wrapped := await wrappedPrivateKey in
  let* k := encode wrapped in
  let* exported := await exportedPublicKey in
  let* p := encode exported in
  let* salt_ := get this salt in
  let* s := encode salt_ in
  ret (Rec.mk k p s).

Definition generate_algorithm : KeyGen.t :=
  KeyGen.mk "RSA-OAEP" 4096 [x01; x00; x01] "SHA-256".

Definition generate_usages : list string :=
  ["encrypt"; "decrypt"; "wrapKey"; "unwrapKey"].

(** [static async generate()] *)
Definition generate : M ref :=
  let* salt := getRandomValues 16 in
  let* generated := generateKey generate_algorithm true generate_usages in
  let* (salt, keyPair) := Promise_all2 (Ok salt) generated in
  let privateKey := KeyPair.privateKey keyPair in
  let publicKey := KeyPair.publicKey keyPair in
  constructor privateKey publicKey salt.

Definition import_algorithm : ImportAlg.t :=
  ImportAlg.mk "RSA-OAEP" "SHA-256".

Definition import_usages : list string := ["encrypt"; "wrapKey"].

(** [static async import({ k, p, s }, password = null)] *)
Definition import (record : Rec.t) (password : option Password) : M ref :=
  let* password := nullish_assign password (let* r := recall in await r) in
  let* salt := decode (Rec.s record) in
  let* exportedPublicKey := decode (Rec.p record) in
  let* wrappedPrivateKey := decode (Rec.k record) in
  let* unwrapped := unwrap password wrappedPrivateKey salt in
  let* imported := importKey "spki" exportedPublicKey import_algorithm true
                import_usages in
  let* (privateKey, publicKey) := Promise_all2 unwrapped imported in
  constructor privateKey publicKey salt.

End Calls.

(** ** What the specification assumes of the collaborators *)



(** the usages a key of each half of an RSA-OAEP pair can have, in the
    order the host lists them *)
Definition public_usages : list string := ["encrypt"; "wrapKey"].
Definition private_usages : list string := ["decrypt"; "unwrapKey"].

Definition usage_intersection (requested allowed : list string)
  : list string :=
  filter (fun u => u ∈ requested) allowed.

Section Laws.
Context (C : Collaborators).

(** Hex Codec: [encode] and [decode] are exact inverses. *)
Class HexInverse : Prop :=
  decode_encode : forall data : bytes,
    base16_decode (base16_encode data) = Ok data.


(** [getRandomValues] fills the array it is given. *)
Class RandomFills : Prop :=
  random_length : forall n w data w',
    crypto_getRandomValues n w = (Ok data, w') -> length data = n.

(** The attributes of the keys the host creates (Web Cryptography API,
    RSA-OAEP: generate key, import key). *)
Class KeyAttributes : Prop := {
  generated_attributes : forall alg extractable usages w pair w',
    subtle_generateKey alg extractable usages w = (Ok pair, w') ->
    let pub := KeyPair.publicKey pair in
    let priv := KeyPair.privateKey pair in
    key_type pub = "public" /\ key_type priv = "private" /\
    key_algorithm pub = ImportAlg.mk (KeyGen.name alg) (KeyGen.hash alg) /\
    key_extractable pub = true /\ key_extractable priv = extractable /\
    key_usages pub = usage_intersection usages public_usages /\
    key_usages priv = usage_intersection usages private_usages;
  imported_attributes : forall data alg extractable usages key,
    subtle_importKey "spki" data alg extractable usages = Ok key ->
    key_type key = "public" /\ key_algorithm key = alg /\
    key_extractable key = extractable /\
    key_usages key = usage_intersection usages public_usages
}.

(** SPKI export and import round-trip a public key: what was exported is
    imported again, with the algorithm of the key and usages a public key
    may have, and an extractable import exports to the same octets. *)
Class SpkiRoundTrip : Prop :=
  spki_round_trip : forall key data usages,
    subtle_exportKey "spki" key = Ok data ->
    key_type key = "public" ->
    usages ⊆ public_usages ->
    exists key',
      subtle_importKey "spki" data (key_algorithm key) true usages = Ok key'
      /\ subtle_exportKey "spki" key' = Ok data.

(** Two private keys that decrypt alike. *)
Definition decrypts_alike (a b : CryptoKey) : Prop :=
  forall ciphertext, subtle_decrypt a ciphertext = subtle_decrypt b ciphertext.

(** [unwrap] with the password and salt of [wrap] gives the key back. *)
Class WrapRoundTrip : Prop :=
  wrap_unwrap : forall password key salt w wrapped w',
    Password_wrap password key salt w = (Ok wrapped, w') ->
    exists key',
      Password_unwrap password wrapped salt = Ok key'
      /\ decrypts_alike key' key.

(** [unwrap] with another password fails. *)
Class UnwrapFailsClosed : Prop :=
  unwrap_wrong_password : forall p1 p2 key salt w wrapped w',
    p1 <> p2 ->
    Password_wrap p1 key salt w = (Ok wrapped, w') ->
    exists e, Password_unwrap p2 wrapped salt = Err e.

(** What the public key of a generated pair encrypts, its private key
    decrypts. *)
Class PairDecrypts : Prop :=
  pair_decrypts : forall alg extractable usages w pair w',
    subtle_generateKey alg extractable usages w = (Ok pair, w') ->
    "decrypt" ∈ usages ->
    forall plaintext w1 ciphertext w2,
      subtle_encrypt (KeyPair.publicKey pair) plaintext w1
        = (Ok ciphertext, w2) ->
      subtle_decrypt (KeyPair.privateKey pair) ciphertext = Ok plaintext.

End Laws.

(** ** A hexadecimal codec *)

Module Base16.

Definition digit (n : N) : ascii :=
  if (n <? 10)%N then ascii_of_N (48 + n) else ascii_of_N (87 + n).

Definition value (c : ascii) : option N :=
  let n := N_of_ascii c in
  if ((48 <=? n) && (n <=? 57))%N then Some (n - 48)%N
  else if ((97 <=? n) && (n <=? 102))%N then Some (n - 87)%N
  else if ((65 <=? n) && (n <=? 70))%N then Some (n - 55)%N
  else None.

Definition octet (hi lo : N) : byte :=
  match Byte.of_N (16 * hi + lo) with
  | Some b => b
  | None => x00
  end.

(** Modelled from the spec: Util/base16.mjs is not among the sources; the
    specification gives [encode(bytes) -> string], lowercase hexadecimal
    without separators. *)
Fixpoint encode (data : bytes) : string :=
  match data with
  | [] => EmptyString
  | b :: rest =>
      let n := Byte.to_N b in
      String (digit (n / 16)) (String (digit (n mod 16)) (encode rest))
  end.

(** Modelled from the spec: Util/base16.mjs is not among the sources; the
    specification gives [decode(string) -> bytes], which fails on non-hex
    input or odd length. *)
Fixpoint decode (text : string) : option bytes :=
  match text with
  | EmptyString => Some []
  | String hi (String lo rest) =>
      match value hi, value lo, decode rest with
      | Some h, Some l, Some data => Some (octet h l :: data)
      | _, _, _ => None
      end
  | String _ EmptyString => None
  end.

End Base16.

(** ** A concrete set of collaborators

    Small enough to run, and honest about the interface: the codec is the
    one above, the password provider wraps a key under the password and the
    salt and refuses any other password, the host hands out keys with the
    attributes the Web Cryptography API prescribes. *)

Module Toy.

Inductive error :=
| PasswordUnavailable
| DecodeFailure
| UnwrapFailure
| KeyImportFailure
| GenerationFailure
| InvalidAccess
| OperationFailure
| UndefinedRead.

(** a key: its attributes and one octet of key material, shared by the two
    halves of a pair *)
Record key := mkKey {
  type : string;
  extractable : bool;
  algorithm : ImportAlg.t;
  usages : list string;
  material : byte
}.

Record world := mkWorld {
  remembered : option string;
  entropy : N;
  hasty : bool
}.

Definition octet_of_N (n : N) : byte :=
  match Byte.of_N (n mod 256) with
  | Some b => b
  | None => x00
  end.

Definition decode (text : string) : Result error bytes :=
  match Base16.decode text with
  | Some data => Ok data
  | None => Err DecodeFailure
  end.

Definition recall (w : world) : Result error string * world :=
  match remembered w with
  | Some password => (Ok password, w)
  | None => (Err PasswordUnavailable, w)
  end.

(** the wrapped key: a fresh octet, the material, then the password and
    the salt it was wrapped under *)
Definition wrap (password : string) (k : key) (salt : bytes) (w : world)
  : Result error bytes * world :=
  if String.eqb (type k) "private" && extractable k
     && bool_decide ("decrypt" ∈ usages k)
  then (Ok (octet_of_N (entropy w) :: material k
            :: list_byte_of_string password ++ salt),
        mkWorld (remembered w) (entropy w + 1) (hasty w))
  else (Err InvalidAccess, w).

Definition unwrap (password : string) (wrapped salt : bytes)
  : Result error key :=
  match wrapped with
  | _ :: m :: rest =>
      if bool_decide (rest = list_byte_of_string password ++ salt)
      then Ok (mkKey "private" true (ImportAlg.mk "RSA-OAEP" "SHA-256")
                     private_usages m)
      else Err UnwrapFailure
  | _ => Err UnwrapFailure
  end.

Definition getRandomValues (n : nat) (w : world)
  : Result error bytes * world :=
  (Ok (map (fun i => octet_of_N (entropy w + N.of_nat i)) (seq 0 n)),
   mkWorld (remembered w) (entropy w + N.of_nat n) (hasty w)).

Definition generateKey (alg : KeyGen.t) (ext : bool) (requested : list string)
    (w : world) : Result error (KeyPair.t key) * world :=
  if String.eqb (KeyGen.name alg) "RSA-OAEP"
  then
    let a := ImportAlg.mk (KeyGen.name alg) (KeyGen.hash alg) in
    let m := octet_of_N (entropy w) in
    (Ok (KeyPair.mk
           (mkKey "private" ext a
                  (usage_intersection requested private_usages) m)
           (mkKey "public" true a
                  (usage_intersection requested public_usages) m)),
     mkWorld (remembered w) (entropy w + 1) (hasty w))
  else (Err GenerationFailure, w).

(** the toy SPKI: a tag and the material *)
Definition exportKey (format : string) (k : key) : Result error bytes :=
  if String.eqb format "spki" && String.eqb (type k) "public"
     && extractable k
  then Ok [x30; material k]
  else Err InvalidAccess.

Definition importKey (format : string) (data : bytes) (alg : ImportAlg.t)
    (ext : bool) (requested : list string) : Result error key :=
  if String.eqb format "spki"
     && bool_decide (requested ⊆ public_usages)
  then
    match data with
    | [tag; m] =>
        if bool_decide (tag = x30)
        then Ok (mkKey "public" ext alg
                       (usage_intersection requested public_usages) m)
        else Err KeyImportFailure
    | _ => Err KeyImportFailure
    end
  else Err KeyImportFailure.

Definition encrypt (k : key) (plaintext : bytes) (w : world)
  : Result error bytes * world :=
  if String.eqb (type k) "public" && bool_decide ("encrypt" ∈ usages k)
  then (Ok (material k :: plaintext), w)
  else (Err InvalidAccess, w).

Definition decrypt (k : key) (ciphertext : bytes) : Result error bytes :=
  if String.eqb (type k) "private" && bool_decide ("decrypt" ∈ usages k)
  then
    match ciphertext with
    | m :: plaintext =>
        if bool_decide (m = material k) then Ok plaintext
        else Err OperationFailure
    | [] => Err OperationFailure
    end
  else Err InvalidAccess.

Definition collaborators : Collaborators := {|
  World := world;
  Error := error;
  CryptoKey := key;
  key_type := type;
  key_extractable := extractable;
  key_algorithm := algorithm;
  key_usages := usages;
  Password := string;
  TypeError := UndefinedRead;
  base16_encode := Base16.encode;
  base16_decode := decode;
  Password_recall := recall;
  Password_wrap := wrap;
  Password_unwrap := unwrap;
  crypto_getRandomValues := getRandomValues;
  subtle_generateKey := generateKey;
  subtle_exportKey := exportKey;
  subtle_importKey := importKey;
  subtle_encrypt := encrypt;
  subtle_decrypt := decrypt;
  first_rejects_first := hasty
|}.

(** a world with no remembered password, and one with *)
Definition forgetful : world := mkWorld None 7 false.
Definition mindful : world := mkWorld (Some "hunter2") 7 false.

Definition start (w : world) : @State collaborators :=
  @mkState collaborators w [].

(** an envelope as [generate] makes them, and a state that holds it *)
Definition envelope : @Cipher collaborators :=
  @mkCipher collaborators
    (mkKey "private" true (ImportAlg.mk "RSA-OAEP" "SHA-256")
           private_usages x17)
    (mkKey "public" true (ImportAlg.mk "RSA-OAEP" "SHA-256")
           public_usages x17)
    [x07; x08; x09; x0a; x0b; x0c; x0d; x0e;
     x0f; x10; x11; x12; x13; x14; x15; x16].

Definition holding (w : world) : @State collaborators :=
  @mkState collaborators w [envelope].

(** what [export] makes of [envelope] under the password "pw" *)
Definition exported : Rec.t :=
  Rec.mk "181770770708090a0b0c0d0e0f10111213141516" "3017"
         "0708090a0b0c0d0e0f10111213141516".

End Toy.

(** ** Reading a run *)

Section Runs.
Context {C : Collaborators}.

Definition result_of {A} (run : Result Error A * State * list Event)
  : Result Error A := run.1.1.

Definition state_after {A} (run : Result Error A * State * list Event)
  : State := run.1.2.

Definition calls_of {A} (run : Result Error A * State * list Event)
  : list Event := run.2.




(** the password a call works with: the argument, or what [recall] gives *)
Definition resolves (password : option Password) (st : State)
    (resolved : Password) : Prop :=
  match password with
  | Some given => resolved = given
  | None => exists w, Password_recall (world st) = (Ok resolved, w)
  end.

(** a computation that leaves every instance as it is and makes none *)
Definition heap_stable {A} (m : M A) : Prop :=
  forall st, heap (state_after (m st)) = heap st.

(** a computation that leaves every instance as it is and, when it
    succeeds, returns a reference to one new instance *)
Definition allocates (m : M ref) : Prop :=
  forall st,
    match result_of (m st) with
    | Ok l =>
        l = length (heap st)
        /\ exists o, heap (state_after (m st)) = heap st ++ [o]
    | Err _ => heap (state_after (m st)) = heap st
    end.

(** a computation all of whose calls satisfy [P] *)
Definition emits {A} (P : Event -> Prop) (m : M A) : Prop :=
  forall st, Forall P (calls_of (m st)).

(** a call that neither recalls a password nor works with any other than
    [password] *)
Definition with_password (password : Password) (ev : Event) : Prop :=
  match ev with
  | EvRecall => False
  | EvWrap used _ _ | EvUnwrap used _ _ => used = password
  | _ => True
  end.

(** a run of a call that first recalled the password *)
Definition after_recall {A} (run : Result Error A * State * list Event)
  : Result Error A * State * list Event :=
  (result_of run, state_after run, EvRecall :: calls_of run).

(** the call that gets the password when none is passed *)
Definition recalling (password : option Password) : list Event :=
  match password with
  | Some _ => []
  | None => [EvRecall]
  end.


(** the calls each operation is written to make *)
Definition generate_call (ev : Event) : Prop :=
  match ev with
  | EvGetRandomValues _ | EvGenerateKey _ _ _ => True
  | _ => False
  end.

Definition export_call (ev : Event) : Prop :=
  match ev with
  | EvRecall | EvWrap _ _ _ | EvExportKey _ _ | EvEncode _ => True
  | _ => False
  end.

Definition import_call (ev : Event) : Prop :=
  match ev with
  | EvRecall | EvDecode _ | EvUnwrap _ _ _ | EvImportKey _ _ _ _ _ => True
  | _ => False
  end.

(** a key is created extractable *)
Definition creates_extractable (ev : Event) : Prop :=
  match ev with
  | EvGenerateKey _ extractable _ => extractable = true
  | EvImportKey _ _ _ extractable _ => extractable = true
  | _ => True
  end.

End Runs.

(** ** Sample runs with the concrete collaborators *)

Module Sample.

Definition C : Collaborators := Toy.collaborators.

(** [Cipher.generate()] in a world without a remembered password *)
Definition generated := @generate C (Toy.start Toy.forgetful).

(** [cipher.export("pw")] on the envelope just generated *)
Definition exporting := @export C 0 (Some "pw") (state_after generated).


(** an envelope with a salt of one octet, as
    [new Cipher({ privateKey, publicKey, salt: new Uint8Array([7]) })]
    makes it, and the record [export("pw")] makes of it *)
Definition short_envelope : @Cipher C :=
  @mkCipher C (privateKey Toy.envelope) (publicKey Toy.envelope) [x07].

Definition short_record : Rec.t := Rec.mk "0717707707" "3017" "07".

(** an envelope whose private key is not extractable *)
Definition locked_envelope : @Cipher C :=
  @mkCipher C
    (Toy.mkKey "private" false (ImportAlg.mk "RSA-OAEP" "SHA-256")
               private_usages x17)
    (publicKey Toy.envelope) (salt Toy.envelope).

(** [Cipher.import(exported, "pw")] in an empty store, and
    [cipher.export("new")] on the envelope that gives *)
Definition importing := @import C Toy.exported (Some "pw")
                                (Toy.start Toy.forgetful).

Definition reexporting := @export C 0 (Some "new") (state_after importing).

Definition reexported : Rec.t :=
  Rec.mk "07176e65770708090a0b0c0d0e0f10111213141516" "3017"
         "0708090a0b0c0d0e0f10111213141516".

(** [cipher.export()] with the remembered password "hunter2" *)
Definition recalled : Rec.t :=
  Rec.mk "071768756e746572320708090a0b0c0d0e0f10111213141516" "3017"
         "0708090a0b0c0d0e0f10111213141516".

(** the octets of [k] and [p] in [Toy.exported] *)
Definition wrapped_octets : bytes :=
  [x18; x17; x70; x77; x07; x08; x09; x0a; x0b; x0c; x0d; x0e;
   x0f; x10; x11; x12; x13; x14; x15; x16].

Definition spki_octets : bytes := [x30; x17].

(** collaborators whose host cannot generate a key pair *)
Definition starved : Collaborators := {|
  World := Toy.world;
  Error := Toy.error;
  CryptoKey := Toy.key;
  key_type := Toy.type;
  key_extractable := Toy.extractable;
  key_algorithm := Toy.algorithm;
  key_usages := Toy.usages;
  Password := string;
  TypeError := Toy.UndefinedRead;
  base16_encode := Base16.encode;
  base16_decode := Toy.decode;
  Password_recall := Toy.recall;
  Password_wrap := Toy.wrap;
  Password_unwrap := Toy.unwrap;
  crypto_getRandomValues := Toy.getRandomValues;
  subtle_generateKey := fun _ _ _ w => (Err Toy.GenerationFailure, w);
  subtle_exportKey := Toy.exportKey;
  subtle_importKey := Toy.importKey;
  subtle_encrypt := Toy.encrypt;
  subtle_decrypt := Toy.decrypt;
  first_rejects_first := Toy.hasty
|}.

End Sample.

(** * Properties *)

(** ** Reading a run backwards: what a result says about the steps *)

Section Inversion.
Context {C : Collaborators}.

Lemma bind_Ok {A B} (m : M A) (f : A -> M B) st b st' calls :
  bind m f st = (Ok b, st', calls) ->
  exists a st1 t1 t2,
    m st = (Ok a, st1, t1) /\ f a st1 = (Ok b, st', t2) /\ calls = t1 ++ t2.
Proof.
  unfold bind. destruct (m st) as [[[a|e] st1] t1]; [|discriminate].
  destruct (f a st1) as [[r st2] t2] eqn:Hf. intros [= -> -> <-].
  by exists a, st1, t1, t2.
Qed.

Lemma get_Ok {A} this (f : Cipher -> A) st a st' calls :
  get this f st = (Ok a, st', calls) ->
  exists o, heap st !! this = Some o /\ a = f o /\ st' = st /\ calls = [].
Proof.
  unfold get. destruct (heap st !! this) as [o|]; [|discriminate].
  intros [= <- <- <-]. by exists o.
Qed.

Lemma await_Ok {A} (p : Promise A) st a st' calls :
  await p st = (Ok a, st', calls) -> p = Ok a /\ st' = st /\ calls = [].
Proof. destruct p; unfold await, ret, throw; by intros [= <- <- <-]. Qed.

Lemma async_call_Ok {A} ev (f : World -> Result Error A * World)
    st p st' calls :
  async_call ev f st = (Ok p, st', calls) ->
  f (world st) = (p, world st') /\ heap st' = heap st /\ calls = [ev].
Proof.
  unfold async_call. destruct (f (world st)) as [r w].
  by intros [= <- <- <-].
Qed.

Lemma async_pure_Ok {A} ev (r : Result Error A) st p st' calls :
  async_pure ev r st = (Ok p, st', calls) ->
  p = r /\ st' = st /\ calls = [ev].
Proof. unfold async_pure. by intros [= <- <- <-]. Qed.

Lemma sync_pure_Ok {A} ev (r : Result Error A) st a st' calls :
  sync_pure ev r st = (Ok a, st', calls) ->
  r = Ok a /\ st' = st /\ calls = [ev].
Proof. unfold sync_pure. by intros [= <- <- <-]. Qed.

Lemma Promise_all2_Ok {A B} (a : Promise A) (b : Promise B) st x st' calls :
  Promise_all2 a b st = (Ok x, st', calls) ->
  a = Ok x.1 /\ b = Ok x.2 /\ st' = st /\ calls = [].
Proof.
  unfold Promise_all2, ret, throw.
  destruct a, b; try destruct (first_rejects_first _);
    by intros [= <- <- <-].
Qed.

Lemma constructor_Ok priv pub s st l st' calls :
  constructor priv pub s st = (Ok l, st', calls) ->
  l = length (heap st) /\ world st' = world st
  /\ heap st' = heap st ++ [mkCipher priv pub s] /\ calls = [].
Proof. unfold constructor. by intros [= <- <- <-]. Qed.

Lemma getRandomValues_Ok n st data st' calls :
  getRandomValues n st = (Ok data, st', calls) ->
  crypto_getRandomValues n (world st) = (Ok data, world st')
  /\ heap st' = heap st /\ calls = [EvGetRandomValues n].
Proof.
  unfold getRandomValues.
  destruct (crypto_getRandomValues n (world st)) as [r w].
  by intros [= -> <- <-].
Qed.

Lemma resolve_Ok (password : option Password) st resolved st' calls :
  nullish_assign password (let* r := recall in await r) st
    = (Ok resolved, st', calls) ->
  heap st' = heap st
  /\ match password with
     | Some given => resolved = given /\ st' = st /\ calls = []
     | None =>
         Password_recall (world st) = (Ok resolved, world st')
         /\ calls = [EvRecall]
     end.
Proof.
  destruct password as [given|]; simpl.
  - by intros [= <- <- <-].
  - intros H. apply bind_Ok in H as (r & st1 & t1 & t2 & H1 & H2 & ->).
    apply async_call_Ok in H1 as (H1 & Hheap & ->).
    apply await_Ok in H2 as (-> & -> & ->). by rewrite H1.
Qed.

End Inversion.

(** Take a successful run apart, step by step. *)
Ltac invert_run H :=
  repeat match type of H with
  | bind _ _ _ = (Ok _, _, _) =>
      let a := fresh "a" in let st := fresh "st" in
      let t1 := fresh "t" in let t2 := fresh "t" in
      let H1 := fresh "Hstep" in let E := fresh "Ecalls" in
      apply bind_Ok in H as (a & st & t1 & t2 & H1 & H & E);
      first
        [ apply get_Ok in H1 as (? & ? & ? & ? & ?)
        | apply await_Ok in H1 as (? & ? & ?)
        | apply async_call_Ok in H1 as (? & ? & ?)
        | apply async_pure_Ok in H1 as (? & ? & ?)
        | apply sync_pure_Ok in H1 as (? & ? & ?)
        | apply Promise_all2_Ok in H1 as (? & ? & ? & ?)
        | apply getRandomValues_Ok in H1 as (? & ? & ?)
        | apply resolve_Ok in H1 as (? & ?)
        | idtac ]
  end.

(** ** What a computation leaves alone, and what it calls *)

Section Frame.
Context {C : Collaborators}.

Lemma heap_stable_bind {A B} (m : M A) (f : A -> M B) :
  heap_stable m -> (forall a, heap_stable (f a)) -> heap_stable (bind m f).
Proof.
  intros Hm Hf st. specialize (Hm st). unfold bind, state_after in *.
  destruct (m st) as [[[a|e] st1] t1]; simpl in *; [|done].
  specialize (Hf a st1). unfold state_after in Hf.
  destruct (f a st1) as [[r st2] t2]; simpl in *. congruence.
Qed.

Lemma heap_stable_ret {A} (a : A) : heap_stable (ret a).
Proof. by intros st. Qed.

Lemma heap_stable_await {A} (p : Promise A) : heap_stable (await p).
Proof. by destruct p; intros st. Qed.

Lemma heap_stable_async_call {A} ev (f : World -> Result Error A * World) :
  heap_stable (async_call ev f).
Proof.
  intros st. unfold async_call, state_after. by destruct (f (world st)).
Qed.

Lemma heap_stable_async_pure {A} ev (r : Result Error A) :
  heap_stable (async_pure ev r).
Proof. by intros st. Qed.

Lemma heap_stable_sync_pure {A} ev (r : Result Error A) :
  heap_stable (sync_pure ev r).
Proof. by intros st. Qed.

Lemma heap_stable_get {A} this (f : Cipher -> A) : heap_stable (get this f).
Proof. intros st. unfold get, state_after. by destruct (heap st !! this). Qed.

Lemma heap_stable_getRandomValues n : heap_stable (getRandomValues n).
Proof.
  intros st. unfold getRandomValues, state_after.
  by destruct (crypto_getRandomValues n (world st)).
Qed.

Lemma heap_stable_Promise_all2 {A B} (a : Promise A) (b : Promise B) :
  heap_stable (Promise_all2 a b).
Proof.
  intros st. unfold Promise_all2, state_after.
  destruct a, b; try done. by destruct (first_rejects_first (world st)).
Qed.

Lemma heap_stable_resolve (password : option Password) :
  heap_stable (nullish_assign password (let* r := recall in await r)).
Proof.
  destruct password; [apply heap_stable_ret|].
  apply heap_stable_bind; [apply heap_stable_async_call|].
  intros; apply heap_stable_await.
Qed.

Lemma allocates_bind {A} (m : M A) (f : A -> M ref) :
  heap_stable m -> (forall a, allocates (f a)) -> allocates (bind m f).
Proof.
  intros Hm Hf st. specialize (Hm st).
  unfold bind, state_after, result_of in *.
  destruct (m st) as [[[a|e] st1] t1]; simpl in *; [|done].
  specialize (Hf a st1). unfold state_after, result_of in Hf.
  destruct (f a st1) as [[r st2] t2]; simpl in *.
  by rewrite Hm in Hf.
Qed.

Lemma allocates_constructor priv pub s : allocates (constructor priv pub s).
Proof. intros st. simpl. split; [done|]. by eexists. Qed.

Lemma emits_bind {A B} P (m : M A) (f : A -> M B) :
  emits P m -> (forall a, emits P (f a)) -> emits P (bind m f).
Proof.
  intros Hm Hf st. specialize (Hm st). unfold bind, calls_of in *.
  destruct (m st) as [[[a|e] st1] t1]; simpl in *; [|done].
  specialize (Hf a st1). unfold calls_of in Hf.
  destruct (f a st1) as [[r st2] t2]; simpl in *.
  by apply Forall_app.
Qed.

Lemma emits_ret {A} P (a : A) : emits P (ret a).
Proof. intros st. constructor. Qed.

Lemma emits_await {A} P (p : Promise A) : emits P (await p).
Proof. destruct p; intros st; constructor. Qed.

Lemma emits_get {A} P this (f : Cipher -> A) : emits P (get this f).
Proof.
  intros st. unfold get, calls_of.
  destruct (heap st !! this); constructor.
Qed.

Lemma emits_Promise_all2 {A B} P (a : Promise A) (b : Promise B) :
  emits P (Promise_all2 a b).
Proof.
  intros st. unfold Promise_all2, calls_of.
  destruct a, b; try constructor.
  destruct (first_rejects_first (world st)); constructor.
Qed.

Lemma emits_constructor P priv pub s : emits P (constructor priv pub s).
Proof. intros st. constructor. Qed.

Lemma emits_async_call {A} (P : Event -> Prop) ev
    (f : World -> Result Error A * World) :
  P ev -> emits P (async_call ev f).
Proof.
  intros HP st. unfold async_call, calls_of.
  destruct (f (world st)). by repeat constructor.
Qed.

Lemma emits_async_pure {A} (P : Event -> Prop) ev (r : Result Error A) :
  P ev -> emits P (async_pure ev r).
Proof. intros HP st. by repeat constructor. Qed.

Lemma emits_sync_pure {A} (P : Event -> Prop) ev (r : Result Error A) :
  P ev -> emits P (sync_pure ev r).
Proof. intros HP st. by repeat constructor. Qed.

Lemma emits_getRandomValues (P : Event -> Prop) n :
  P (EvGetRandomValues n) -> emits P (getRandomValues n).
Proof.
  intros HP st. unfold getRandomValues, calls_of.
  destruct (crypto_getRandomValues n (world st)). by repeat constructor.
Qed.

Lemma emits_bind_ret {A B} P (a : A) (f : A -> M B) :
  emits P (f a) -> emits P (bind (ret a) f).
Proof.
  intros Hf st. specialize (Hf st). unfold bind, ret, calls_of in *.
  by destruct (f a st) as [[r st2] t2].
Qed.

Lemma emits_resolve (P : Event -> Prop) (password : option Password) :
  (password = None -> P EvRecall) ->
  emits P (nullish_assign password (let* r := recall in await r)).
Proof.
  destruct password; simpl; intros HP; [apply emits_ret|].
  apply emits_bind; [apply emits_async_call; auto|].
  intros; apply emits_await.
Qed.

End Frame.

Create HintDb frame discriminated.
#[export] Hint Resolve heap_stable_ret heap_stable_await
  heap_stable_async_call heap_stable_async_pure heap_stable_sync_pure
  heap_stable_get heap_stable_getRandomValues heap_stable_Promise_all2
  heap_stable_resolve allocates_constructor : frame.
#[export] Hint Resolve emits_ret emits_await emits_get emits_Promise_all2
  emits_constructor : frame.

(** Walk down a program, one [bind] at a time. *)
Ltac walk :=
  repeat first
    [ apply heap_stable_bind; [|intros ?]
    | apply allocates_bind; [|intros ?]
    | apply emits_bind; [|intros ?]
    | match goal with |- context [match ?x with (_, _) => _ end] =>
        destruct x end ];
  eauto with frame;
  try (first [ apply emits_resolve | apply emits_async_call
             | apply emits_async_pure | apply emits_sync_pure
             | apply emits_getRandomValues ]; by simpl).

Section Heap.
Context {C : Collaborators}.

Lemma export_heap_stable this password : heap_stable (export this password).
Proof. unfold export, wrap, exportKey, encode. walk. Qed.

Lemma generate_allocates : allocates generate.
Proof. unfold generate, generateKey. walk. Qed.

Lemma import_allocates record password : allocates (import record password).
Proof. unfold import, decode, unwrap, importKey. walk. Qed.

Lemma allocates_keeps (m : M ref) st l env :
  allocates m ->
  heap st !! l = Some env -> heap (state_after (m st)) !! l = Some env.
Proof.
  intros Hm Hl. specialize (Hm st). destruct (result_of (m st)).
  - destruct Hm as [_ [o ->]]. by apply lookup_app_l_Some.
  - by rewrite Hm.
Qed.

Lemma allocates_fresh (m : M ref) st l :
  allocates m ->
  result_of (m st) = Ok l ->
  heap st !! l = None /\ is_Some (heap (state_after (m st)) !! l).
Proof.
  intros Hm Hl. specialize (Hm st). rewrite Hl in Hm.
  destruct Hm as [-> [o ->]]. split.
  - by apply lookup_ge_None_2.
  - exists o. by apply list_lookup_middle.
Qed.

End Heap.

(** ** The successful runs of the three operations *)

Section Successes.
Context {C : Collaborators}.

Lemma export_Ok this password st record st' calls :
  export this password st = (Ok record, st', calls) ->
  exists env resolved st0 t0 wrapped spki,
    heap st !! this = Some env
    /\ nullish_assign password (let* r := recall in await r) st
       = (Ok resolved, st0, t0)
    /\ Password_wrap resolved (privateKey env) (salt env) (world st0)
       = (Ok wrapped, world st')
    /\ subtle_exportKey "spki" (publicKey env) = Ok spki
    /\ record = Rec.mk (base16_encode wrapped) (base16_encode spki)
                       (base16_encode (salt env))
    /\ heap st' = heap st
    /\ calls = t0 ++ [EvWrap resolved (privateKey env) (salt env);
                      EvExportKey "spki" (publicKey env);
                      EvEncode wrapped; EvEncode spki; EvEncode (salt env)].
Proof.
  intros Hrun. unfold export in Hrun.
  apply bind_Ok in Hrun as (pw & st0 & t0 & t1 & Hres & Hrun & ->).
  pose proof (resolve_Ok _ _ _ _ _ Hres) as [Hheap _].
  unfold wrap, exportKey, encode in Hrun. invert_run Hrun.
  injection Hrun as <- <- <-. simplify_eq.
  match goal with H : heap ?s = heap st0 |- _ => rewrite H in * end.
  simplify_eq.
  exists x, pw, st0, t0, a4, a6. rewrite <- Hheap.
  repeat split; done.
Qed.

Lemma generate_Ok st l st' calls :
  generate st = (Ok l, st', calls) ->
  exists data w1 pair,
    crypto_getRandomValues 16 (world st) = (Ok data, w1)
    /\ subtle_generateKey generate_algorithm true generate_usages w1
       = (Ok pair, world st')
    /\ l = length (heap st)
    /\ heap st' = heap st ++ [mkCipher (KeyPair.privateKey pair)
                                       (KeyPair.publicKey pair) data]
    /\ calls = [EvGetRandomValues 16;
                EvGenerateKey generate_algorithm true generate_usages].
Proof.
  intros Hrun. unfold generate, generateKey in Hrun. invert_run Hrun.
  destruct a1 as [data pair]. simpl in *. simplify_eq.
  apply constructor_Ok in Hrun as (-> & Hw & Hh & ->).
  exists data, (world st0), pair.
  rewrite Hw, Hh. repeat match goal with H : heap _ = heap _ |- _ =>
    rewrite H in * end.
  repeat split; done.
Qed.

Lemma import_Ok record password st l st' calls :
  import record password st = (Ok l, st', calls) ->
  exists resolved st0 t0 salt_ spki wrapped priv pub,
    nullish_assign password (let* r := recall in await r) st
      = (Ok resolved, st0, t0)
    /\ base16_decode (Rec.s record) = Ok salt_
    /\ base16_decode (Rec.p record) = Ok spki
    /\ base16_decode (Rec.k record) = Ok wrapped
    /\ Password_unwrap resolved wrapped salt_ = Ok priv
    /\ subtle_importKey "spki" spki import_algorithm true import_usages
       = Ok pub
    /\ l = length (heap st)
    /\ world st' = world st0
    /\ heap st' = heap st ++ [mkCipher priv pub salt_]
    /\ calls = t0 ++ [EvDecode (Rec.s record); EvDecode (Rec.p record);
                      EvDecode (Rec.k record);
                      EvUnwrap resolved wrapped salt_;
                      EvImportKey "spki" spki import_algorithm true
                                  import_usages].
Proof.
  intros Hrun. unfold import in Hrun.
  apply bind_Ok in Hrun as (pw & st0 & t0 & t1 & Hres & Hrun & ->).
  pose proof (resolve_Ok _ _ _ _ _ Hres) as [Hheap _].
  unfold decode, unwrap, importKey in Hrun. invert_run Hrun.
  destruct a4 as [priv pub]. simpl in *. simplify_eq.
  apply constructor_Ok in Hrun as (-> & Hw & Hh & ->).
  exists pw, st0, t0, a, a0, a1, priv, pub. rewrite <- Hheap.
  repeat split; try done; congruence.
Qed.

(** ** The runs of [import] and [export], spelled out *)

Lemma resolve_recall {A} (F : Password -> M A) st :
  bind (nullish_assign None (let* r := recall in await r)) F st
  = match Password_recall (world st) with
    | (Ok resolved, w) =>
        after_recall
          (bind (nullish_assign (Some resolved) (let* r := recall in await r))
                F (mkState w (heap st)))
    | (Err e, w) => (Err e, mkState w (heap st), [EvRecall])
    end.
Proof.
  unfold after_recall, bind, nullish_assign, recall, async_call, await,
    ret, throw, result_of, state_after, calls_of.
  destruct (Password_recall (world st)) as [[resolved|e] w]; simpl; [|done].
  by destruct (F resolved _) as [[? ?] ?].
Qed.

Lemma import_supplied record password st :
  import record (Some password) st
  = match base16_decode (Rec.s record) with
    | Err e => (Err e, st, [EvDecode (Rec.s record)])
    | Ok salt_ =>
      match base16_decode (Rec.p record) with
      | Err e => (Err e, st, [EvDecode (Rec.s record); EvDecode (Rec.p record)])
      | Ok spki =>
        match base16_decode (Rec.k record) with
        | Err e =>
            (Err e, st, [EvDecode (Rec.s record); EvDecode (Rec.p record);
                         EvDecode (Rec.k record)])
        | Ok wrapped =>
            let calls :=
              [EvDecode (Rec.s record); EvDecode (Rec.p record);
               EvDecode (Rec.k record); EvUnwrap password wrapped salt_;
               EvImportKey "spki" spki import_algorithm true import_usages] in
            match Password_unwrap password wrapped salt_,
                  subtle_importKey "spki" spki import_algorithm true
                                   import_usages with
            | Ok priv, Ok pub =>
                (Ok (length (heap st)),
                 mkState (world st) (heap st ++ [mkCipher priv pub salt_]),
                 calls)
            | Err e, Ok _ => (Err e, st, calls)
            | Ok _, Err e => (Err e, st, calls)
            | Err e1, Err e2 =>
                (Err (if first_rejects_first (world st) then e1 else e2),
                 st, calls)
            end
        end
      end
    end.
Proof.
  unfold import, decode, unwrap, importKey, nullish_assign, sync_pure,
    async_pure, bind, ret. simpl.
  destruct (base16_decode (Rec.s record)) as [salt_|]; [simpl|done].
  destruct (base16_decode (Rec.p record)) as [spki|]; [simpl|done].
  destruct (base16_decode (Rec.k record)) as [wrapped|]; [simpl|done].
  destruct (Password_unwrap _ _ _), (subtle_importKey _ _ _ _ _);
    simpl; try done.
  by destruct (first_rejects_first _).
Qed.

(** [export] with a password passed, spelled out. *)
Lemma export_supplied this password st :
  export this (Some password) st
  = match heap st !! this with
    | None => (Err TypeError, st, [])
    | Some env =>
      match Password_wrap password (privateKey env) (salt env) (world st) with
      | (wrapping, w) =>
        let st1 := mkState w (heap st) in
        let issued := [EvWrap password (privateKey env) (salt env);
                       EvExportKey "spki" (publicKey env)] in
        match wrapping with
        | Err e => (Err e, st1, issued)
        | Ok wrapped =>
          match subtle_exportKey "spki" (publicKey env) with
          | Err e => (Err e, st1, issued ++ [EvEncode wrapped])
          | Ok spki =>
              (Ok (Rec.mk (base16_encode wrapped) (base16_encode spki)
                          (base16_encode (salt env))),
               st1,
               issued ++ [EvEncode wrapped; EvEncode spki;
                          EvEncode (salt env)])
          end
        end
      end
    end.
Proof.
  unfold export, wrap, exportKey, encode, get, nullish_assign, async_call,
    async_pure, sync_pure, await, bind, ret, throw. simpl.
  destruct (heap st !! this) as [env|] eqn:Hthis; [simpl|done].
  rewrite Hthis. simpl.
  destruct (Password_wrap _ _ _ _) as [[wrapped|e] w]; simpl;
    rewrite Hthis; simpl; [|done].
  destruct (subtle_exportKey _ _) as [spki|e]; simpl; [|done].
  by rewrite Hthis.
Qed.

(** [generate], spelled out. *)
Lemma generate_run st :
  generate st
  = match crypto_getRandomValues 16 (world st) with
    | (Err e, w) => (Err e, mkState w (heap st), [EvGetRandomValues 16])
    | (Ok data, w) =>
      let issued :=
        [EvGetRandomValues 16;
         EvGenerateKey generate_algorithm true generate_usages] in
      match subtle_generateKey generate_algorithm true generate_usages w with
      | (Err e, w') => (Err e, mkState w' (heap st), issued)
      | (Ok keyPair, w') =>
          (Ok (length (heap st)),
           mkState w' (heap st ++ [mkCipher (KeyPair.privateKey keyPair)
                                            (KeyPair.publicKey keyPair)
                                            data]),
           issued)
      end
    end.
Proof.
  unfold generate, getRandomValues, generateKey, async_call, Promise_all2,
    constructor, bind, ret, throw. simpl.
  destruct (crypto_getRandomValues 16 (world st)) as [[data|e] w];
    simpl; [|done].
  by destruct (subtle_generateKey _ _ _ _) as [[pair|e] w'].
Qed.

(** [import] goes through when every step does. *)
Lemma import_progress record password st resolved salt_ spki wrapped
    priv pub :
  resolves password st resolved ->
  base16_decode (Rec.s record) = Ok salt_ ->
  base16_decode (Rec.p record) = Ok spki ->
  base16_decode (Rec.k record) = Ok wrapped ->
  Password_unwrap resolved wrapped salt_ = Ok priv ->
  subtle_importKey "spki" spki import_algorithm true import_usages = Ok pub ->
  exists st',
    import record password st
    = (Ok (length (heap st)), st',
       recalling password
       ++ [EvDecode (Rec.s record); EvDecode (Rec.p record);
           EvDecode (Rec.k record); EvUnwrap resolved wrapped salt_;
           EvImportKey "spki" spki import_algorithm true import_usages])
    /\ heap st' = heap st ++ [mkCipher priv pub salt_].
Proof.
  intros Hres Hs Hp Hk Hu Hi. destruct password as [given|]; simpl in Hres.
  - subst. rewrite import_supplied, Hs, Hp, Hk, Hu, Hi. by eexists.
  - destruct Hres as [w Hrecall].
    pose proof (import_supplied record resolved (mkState w (heap st)))
      as Hrun.
    rewrite Hs, Hp, Hk, Hu, Hi in Hrun. unfold import in *.
    rewrite resolve_recall, Hrecall, Hrun. by eexists.
Qed.

End Successes.

(** ** The claims *)

Lemma generated_public_usages :
  usage_intersection generate_usages public_usages = ["encrypt"; "wrapKey"].
Proof. by vm_compute. Qed.

Lemma generated_private_usages :
  usage_intersection generate_usages private_usages
  = ["decrypt"; "unwrapKey"].
Proof. by vm_compute. Qed.

Lemma imported_public_usages :
  usage_intersection import_usages public_usages = ["encrypt"; "wrapKey"].
Proof. by vm_compute. Qed.

Section Claims.
Context {C : Collaborators}.

(** C8. An envelope is immutable after construction.  [export] leaves every
    instance, the one it is called on included, exactly as it was;
    [generate] and [import] leave every existing instance as it was, and
    the reference they return on success is to an instance that did not
    exist before: a new value, not an update. *)
Theorem envelope_immutable (st : State) :
  (forall this password,
     heap (state_after (export this password st)) = heap st)
  /\ (forall l env,
        heap st !! l = Some env ->
        heap (state_after (generate st)) !! l = Some env)
  /\ (forall l,
        result_of (generate st) = Ok l ->
        heap st !! l = None
        /\ is_Some (heap (state_after (generate st)) !! l))
  /\ (forall record password l env,
        heap st !! l = Some env ->
        heap (state_after (import record password st)) !! l = Some env)
  /\ (forall record password l,
        result_of (import record password st) = Ok l ->
        heap st !! l = None
        /\ is_Some (heap (state_after (import record password st)) !! l)).
Proof.
  split; [intros; apply export_heap_stable|].
  split; [intros l env; apply allocates_keeps, generate_allocates|].
  split; [intros l; apply allocates_fresh, generate_allocates|].
  split; intros record password l.
  - intros env. apply allocates_keeps, import_allocates.
  - apply allocates_fresh, import_allocates.
Qed.

(** C4. Salt stability: the [s] field of a record that [export] produced
    decodes to the salt of the envelope, octet for octet. *)
Theorem export_salt_stable `{!HexInverse C} this password st env
    record st' calls :
  heap st !! this = Some env ->
  export this password st = (Ok record, st', calls) ->
  Rec.s record = base16_encode (salt env)
  /\ base16_decode (Rec.s record) = Ok (salt env).
Proof.
  intros Hthis Hrun.
  apply export_Ok in Hrun
    as (env' & pw & st0 & t0 & wrapped & spki & Henv & _ & _ & _ & -> & _).
  assert (env' = env) as -> by congruence. simpl.
  split; [done|]. exact (decode_encode C (salt env)).
Qed.

(** C5. [generate] draws 16 octets from [crypto.getRandomValues] for the
    salt and asks the host for an RSA-OAEP pair with a 4096-bit modulus,
    public exponent 65537 and SHA-256; the private key of the envelope can
    decrypt and unwrap keys, the public key can encrypt and wrap keys. *)
Theorem generate_policy `{!RandomFills C} `{!KeyAttributes C}
    st l st' calls :
  generate st = (Ok l, st', calls) ->
  calls = [EvGetRandomValues 16;
           EvGenerateKey
             (KeyGen.mk "RSA-OAEP" 4096 [x01; x00; x01] "SHA-256") true
             ["encrypt"; "decrypt"; "wrapKey"; "unwrapKey"]]
  /\ be_to_N (KeyGen.publicExponent generate_algorithm) = 65537%N
  /\ exists env w,
       heap st' !! l = Some env
       /\ crypto_getRandomValues 16 (world st) = (Ok (salt env), w)
       /\ length (salt env) = 16
       /\ subtle_generateKey generate_algorithm true generate_usages w
          = (Ok (KeyPair.mk (privateKey env) (publicKey env)), world st')
       /\ "decrypt" ∈ key_usages (privateKey env)
       /\ "unwrapKey" ∈ key_usages (privateKey env)
       /\ "encrypt" ∈ key_usages (publicKey env)
       /\ "wrapKey" ∈ key_usages (publicKey env).
Proof.
  intros Hrun.
  apply generate_Ok in Hrun as (data & w & pair & Hrand & Hgen & -> & Hh & ->).
  split; [done|]. split; [done|].
  exists (mkCipher (KeyPair.privateKey pair) (KeyPair.publicKey pair) data), w.
  pose proof (generated_attributes _ _ _ _ _ _ _ Hgen)
    as (_ & _ & _ & _ & _ & Hpub & Hpriv). simpl in *.
  rewrite Hh, Hpub, Hpriv, generated_public_usages,
    generated_private_usages.
  destruct pair as [priv pub]. simpl.
  split; [by apply list_lookup_middle|].
  split; [done|]. split; [by eapply random_length|]. split; [done|].
  repeat split; repeat constructor.
Qed.

(** C6. The public key that [import] reconstructs has exactly the usages
    encrypt and wrapKey, and so has the public key of a generated envelope:
    the two capability sets are equal.  For every import that succeeds the
    public key is what [importKey] gave for the usages encrypt and wrapKey,
    and [import] does succeed whenever its steps do; likewise for
    [generate]. *)
Theorem public_key_usages_agree `{!KeyAttributes C} :
  (forall record password st l st' calls,
     import record password st = (Ok l, st', calls) ->
     exists imported spki,
       heap st' !! l = Some imported
       /\ EvImportKey "spki" spki import_algorithm true
                      ["encrypt"; "wrapKey"] ∈ calls
       /\ subtle_importKey "spki" spki import_algorithm true
                           ["encrypt"; "wrapKey"]
          = Ok (publicKey imported)
       /\ key_usages (publicKey imported) = ["encrypt"; "wrapKey"])
  /\ (forall record password st resolved salt_ spki wrapped priv pub,
        resolves password st resolved ->
        base16_decode (Rec.s record) = Ok salt_ ->
        base16_decode (Rec.p record) = Ok spki ->
        base16_decode (Rec.k record) = Ok wrapped ->
        Password_unwrap resolved wrapped salt_ = Ok priv ->
        subtle_importKey "spki" spki import_algorithm true
                         ["encrypt"; "wrapKey"] = Ok pub ->
        exists l st' calls imported,
          import record password st = (Ok l, st', calls)
          /\ heap st' !! l = Some imported
          /\ publicKey imported = pub
          /\ key_usages (publicKey imported) = ["encrypt"; "wrapKey"])
  /\ (forall st l st' calls,
        generate st = (Ok l, st', calls) ->
        exists generated,
          heap st' !! l = Some generated
          /\ key_usages (publicKey generated) = ["encrypt"; "wrapKey"])
  /\ (forall st data w pair w',
        crypto_getRandomValues 16 (world st) = (Ok data, w) ->
        subtle_generateKey generate_algorithm true generate_usages w
          = (Ok pair, w') ->
        exists l st' calls generated,
          generate st = (Ok l, st', calls)
          /\ heap st' !! l = Some generated
          /\ publicKey generated = KeyPair.publicKey pair
          /\ key_usages (publicKey generated) = ["encrypt"; "wrapKey"])
  /\ (forall st l st' calls record password st2 l2 st2' calls2,
        generate st = (Ok l, st', calls) ->
        import record password st2 = (Ok l2, st2', calls2) ->
        exists generated imported,
          heap st' !! l = Some generated
          /\ heap st2' !! l2 = Some imported
          /\ key_usages (publicKey generated)
             = key_usages (publicKey imported)).
Proof.
  assert (Himported : forall record password st l st' calls,
            import record password st = (Ok l, st', calls) ->
            exists imported spki,
              heap st' !! l = Some imported
              /\ EvImportKey "spki" spki import_algorithm true
                             ["encrypt"; "wrapKey"] ∈ calls
              /\ subtle_importKey "spki" spki import_algorithm true
                                  ["encrypt"; "wrapKey"]
                 = Ok (publicKey imported)
              /\ key_usages (publicKey imported) = ["encrypt"; "wrapKey"]).
  { intros record password st l st' calls Himp.
    apply import_Ok in Himp
      as (pw & st0 & t0 & salt_ & spki & wrapped & priv & pub
          & _ & _ & _ & _ & _ & Hpub & -> & _ & Hh & ->).
    pose proof (imported_attributes _ _ _ _ _ _ Hpub) as (_ & _ & _ & Huse).
    rewrite imported_public_usages in Huse.
    exists (mkCipher priv pub salt_), spki. rewrite Hh.
    split; [by apply list_lookup_middle|].
    split; [|done]. apply elem_of_app. right. repeat constructor. }
  assert (Hgenerated : forall st l st' calls,
            generate st = (Ok l, st', calls) ->
            exists generated,
              heap st' !! l = Some generated
              /\ key_usages (publicKey generated) = ["encrypt"; "wrapKey"]).
  { intros st l st' calls Hgen.
    apply generate_Ok in Hgen as (data & w & pair & _ & Hgen & -> & Hh & _).
    pose proof (generated_attributes _ _ _ _ _ _ _ Hgen)
      as (_ & _ & _ & _ & _ & Huse & _).
    rewrite generated_public_usages in Huse.
    eexists. rewrite Hh. split; [by apply list_lookup_middle|done]. }
  split; [exact Himported|]. split; [|split; [exact Hgenerated|split]].
  - intros record password st resolved salt_ spki wrapped priv pub
      Hres Hs Hp Hk Hu Hi.
    destruct (import_progress _ _ st _ _ _ _ _ _ Hres Hs Hp Hk Hu Hi)
      as (st' & Hrun & Hh).
    pose proof (imported_attributes _ _ _ _ import_usages _ Hi)
      as (_ & _ & _ & Huse).
    rewrite imported_public_usages in Huse.
    eexists _, st', _, (mkCipher priv pub salt_).
    split; [exact Hrun|]. rewrite Hh.
    split; [by apply list_lookup_middle|done].
  - intros st data w pair w' Hrand Hgen.
    pose proof (generated_attributes _ _ _ _ _ _ _ Hgen)
      as (_ & _ & _ & _ & _ & Huse & _).
    rewrite generated_public_usages in Huse.
    eexists _, _, _, _. rewrite generate_run, Hrand, Hgen.
    split; [done|]. simpl. split; [by apply list_lookup_middle|done].
  - intros st l st' calls record password st2 l2 st2' calls2 Hgen Himp.
    destruct (Hgenerated _ _ _ _ Hgen) as (generated & Hg & Hgu).
    destruct (Himported _ _ _ _ _ _ Himp)
      as (imported & spki & Hi & _ & _ & Hiu).
    exists generated, imported. repeat split; try done. congruence.
Qed.

(** C10. Every key handle the core asks the host for is extractable:
    [generate] passes [true] to [generateKey], so both keys of the pair are
    extractable, and [import] passes [true] to [importKey], so the
    reconstructed public key is; [export] creates no key.  Both operations
    do succeed, with these keys in the envelope, whenever their steps
    do. *)
Theorem key_handles_extractable `{!KeyAttributes C} :
  (forall st, Forall creates_extractable (calls_of (generate st)))
  /\ (forall record password st,
        Forall creates_extractable (calls_of (import record password st)))
  /\ (forall this password st,
        Forall creates_extractable (calls_of (export this password st)))
  /\ (forall st l st' calls,
        generate st = (Ok l, st', calls) ->
        EvGenerateKey generate_algorithm true generate_usages ∈ calls
        /\ exists env,
             heap st' !! l = Some env
             /\ key_extractable (privateKey env) = true
             /\ key_extractable (publicKey env) = true)
  /\ (forall st data w pair w',
        crypto_getRandomValues 16 (world st) = (Ok data, w) ->
        subtle_generateKey generate_algorithm true generate_usages w
          = (Ok pair, w') ->
        exists l st' calls env,
          generate st = (Ok l, st', calls)
          /\ EvGenerateKey generate_algorithm true generate_usages ∈ calls
          /\ heap st' !! l = Some env
          /\ privateKey env = KeyPair.privateKey pair
          /\ publicKey env = KeyPair.publicKey pair
          /\ key_extractable (privateKey env) = true
          /\ key_extractable (publicKey env) = true)
  /\ (forall record password st l st' calls,
        import record password st = (Ok l, st', calls) ->
        exists env data,
          EvImportKey "spki" data import_algorithm true import_usages ∈ calls
          /\ heap st' !! l = Some env
          /\ subtle_importKey "spki" data import_algorithm true import_usages
             = Ok (publicKey env)
          /\ key_extractable (publicKey env) = true)
  /\ (forall record password st resolved salt_ spki wrapped priv pub,
        resolves password st resolved ->
        base16_decode (Rec.s record) = Ok salt_ ->
        base16_decode (Rec.p record) = Ok spki ->
        base16_decode (Rec.k record) = Ok wrapped ->
        Password_unwrap resolved wrapped salt_ = Ok priv ->
        subtle_importKey "spki" spki import_algorithm true import_usages
          = Ok pub ->
        exists l st' calls env,
          import record password st = (Ok l, st', calls)
          /\ EvImportKey "spki" spki import_algorithm true import_usages
             ∈ calls
          /\ heap st' !! l = Some env
          /\ publicKey env = pub
          /\ key_extractable (publicKey env) = true).
Proof.
  split; [|split; [|split; [|split; [|split; [|split]]]]].
  - unfold generate, generateKey. walk.
  - intros record password. unfold import, decode, unwrap, importKey. walk.
  - intros this password. unfold export, wrap, exportKey, encode. walk.
  - intros st l st' calls Hgen.
    apply generate_Ok in Hgen as (data & w & pair & _ & Hgen & -> & Hh & ->).
    split; [repeat constructor|].
    pose proof (generated_attributes _ _ _ _ _ _ _ Hgen)
      as (_ & _ & _ & Hpub & Hpriv & _).
    eexists. rewrite Hh. split; [by apply list_lookup_middle|]. done.
  - intros st data w pair w' Hrand Hgen.
    pose proof (generated_attributes _ _ _ _ _ _ _ Hgen)
      as (_ & _ & _ & Hpub & Hpriv & _).
    eexists _, _, _, _. rewrite generate_run, Hrand, Hgen.
    split; [done|]. split; [repeat constructor|]. simpl.
    split; [by apply list_lookup_middle|done].
  - intros record password st l st' calls Himp.
    apply import_Ok in Himp
      as (pw & st0 & t0 & salt_ & spki & wrapped & priv & pub
          & _ & _ & _ & _ & _ & Hpub & -> & _ & Hh & ->).
    pose proof (imported_attributes _ _ _ _ _ _ Hpub) as (_ & _ & Hext & _).
    eexists _, spki. rewrite Hh.
    split; [|split; [by apply list_lookup_middle|done]].
    apply elem_of_app. right. repeat constructor.
  - intros record password st resolved salt_ spki wrapped priv pub
      Hres Hs Hp Hk Hu Hi.
    destruct (import_progress _ _ st _ _ _ _ _ _ Hres Hs Hp Hk Hu Hi)
      as (st' & Hrun & Hh).
    pose proof (imported_attributes _ _ _ _ _ _ Hi) as (_ & _ & Hext & _).
    eexists _, st', _, (mkCipher priv pub salt_).
    split; [exact Hrun|].
    split; [apply elem_of_app; right; repeat constructor|].
    rewrite Hh. split; [by apply list_lookup_middle|done].
Qed.

(** C7. The password of [export] and [import].  A password that is passed
    is the one used: [wrap] and [unwrap] are called with it, the result is
    what they give for it, and [recall] is not called.  Without one,
    [recall] is called first: when it gives a password the call goes on as
    if that password had been passed, and when it fails the call fails with
    the same error, having called nothing else: no wrap or unwrap, no key
    export or import, no encoding or decoding. *)
Theorem password_resolution :
  (forall this password st,
     Forall (with_password password)
            (calls_of (export this (Some password) st)))
  /\ (forall record password st,
        Forall (with_password password)
               (calls_of (import record (Some password) st)))
  /\ (forall this password st env,
        heap st !! this = Some env ->
        exists rest,
          calls_of (export this (Some password) st)
          = EvWrap password (privateKey env) (salt env) :: rest)
  /\ (forall this password st env wrapped w spki,
        heap st !! this = Some env ->
        Password_wrap password (privateKey env) (salt env) (world st)
          = (Ok wrapped, w) ->
        subtle_exportKey "spki" (publicKey env) = Ok spki ->
        export this (Some password) st
        = (Ok (Rec.mk (base16_encode wrapped) (base16_encode spki)
                      (base16_encode (salt env))),
           mkState w (heap st),
           [EvWrap password (privateKey env) (salt env);
            EvExportKey "spki" (publicKey env);
            EvEncode wrapped; EvEncode spki; EvEncode (salt env)]))
  /\ (forall record password st salt_ spki wrapped,
        base16_decode (Rec.s record) = Ok salt_ ->
        base16_decode (Rec.p record) = Ok spki ->
        base16_decode (Rec.k record) = Ok wrapped ->
        calls_of (import record (Some password) st)
        = [EvDecode (Rec.s record); EvDecode (Rec.p record);
           EvDecode (Rec.k record); EvUnwrap password wrapped salt_;
           EvImportKey "spki" spki import_algorithm true import_usages])
  /\ (forall record password st salt_ spki wrapped priv pub,
        base16_decode (Rec.s record) = Ok salt_ ->
        base16_decode (Rec.p record) = Ok spki ->
        base16_decode (Rec.k record) = Ok wrapped ->
        Password_unwrap password wrapped salt_ = Ok priv ->
        subtle_importKey "spki" spki import_algorithm true import_usages
          = Ok pub ->
        import record (Some password) st
        = (Ok (length (heap st)),
           mkState (world st) (heap st ++ [mkCipher priv pub salt_]),
           [EvDecode (Rec.s record); EvDecode (Rec.p record);
            EvDecode (Rec.k record); EvUnwrap password wrapped salt_;
            EvImportKey "spki" spki import_algorithm true import_usages]))
  /\ (forall this st resolved w,
        Password_recall (world st) = (Ok resolved, w) ->
        export this None st
        = after_recall (export this (Some resolved) (mkState w (heap st))))
  /\ (forall record st resolved w,
        Password_recall (world st) = (Ok resolved, w) ->
        import record None st
        = after_recall (import record (Some resolved) (mkState w (heap st))))
  /\ (forall this st e w,
        Password_recall (world st) = (Err e, w) ->
        export this None st = (Err e, mkState w (heap st), [EvRecall]))
  /\ (forall record st e w,
        Password_recall (world st) = (Err e, w) ->
        import record None st = (Err e, mkState w (heap st), [EvRecall])).
Proof.
  repeat match goal with |- _ /\ _ => split end.
  - intros this password. unfold export, wrap, exportKey, encode. simpl.
    apply emits_bind_ret. walk.
  - intros record password. unfold import, decode, unwrap, importKey. simpl.
    apply emits_bind_ret. walk.
  - intros this password st env Hthis. rewrite export_supplied, Hthis.
    destruct (Password_wrap _ _ _ _) as [[wrapped|e] w]; [|by eexists].
    destruct (subtle_exportKey _ _); by eexists.
  - intros this password st env wrapped w spki Hthis Hwrap Hspki.
    by rewrite export_supplied, Hthis, Hwrap, Hspki.
  - intros record password st salt_ spki wrapped Hs Hp Hk.
    rewrite import_supplied, Hs, Hp, Hk.
    destruct (Password_unwrap _ _ _), (subtle_importKey _ _ _ _ _); done.
  - intros record password st salt_ spki wrapped priv pub Hs Hp Hk Hu Hi.
    by rewrite import_supplied, Hs, Hp, Hk, Hu, Hi.
  - intros this st resolved w Hrecall. unfold export.
    by rewrite resolve_recall, Hrecall.
  - intros record st resolved w Hrecall. unfold import.
    by rewrite resolve_recall, Hrecall.
  - intros this st e w Hrecall. unfold export.
    by rewrite resolve_recall, Hrecall.
  - intros record st e w Hrecall. unfold import.
    by rewrite resolve_recall, Hrecall.
Qed.


(** C9, as amended.  The salt of an envelope that [generate] made has
    exactly 16 octets.  The salt of an envelope that [import] made is what
    the [s] field of the record decodes to, whatever its length.  No
    operation changes the salt, or any other field, of an envelope that
    exists. *)
Theorem envelope_salt `{!RandomFills C} :
  (forall st l st' calls,
     generate st = (Ok l, st', calls) ->
     exists env, heap st' !! l = Some env /\ length (salt env) = 16)
  /\ (forall record password st l st' calls,
        import record password st = (Ok l, st', calls) ->
        exists env,
          heap st' !! l = Some env
          /\ base16_decode (Rec.s record) = Ok (salt env))
  /\ (forall st l env,
        heap st !! l = Some env ->
        (forall this password,
           heap (state_after (export this password st)) !! l = Some env)
        /\ heap (state_after (generate st)) !! l = Some env
        /\ (forall record password,
              heap (state_after (import record password st)) !! l
              = Some env)).
Proof.
  split; [|split].
  - intros st l st' calls Hgen.
    apply generate_Ok in Hgen as (data & w & pair & Hrand & _ & -> & Hh & _).
    eexists. rewrite Hh. split; [by apply list_lookup_middle|].
    simpl. by eapply random_length.
  - intros record password st l st' calls Himp.
    apply import_Ok in Himp
      as (pw & st0 & t0 & salt_ & spki & wrapped & priv & pub
          & _ & Hs & _ & _ & _ & _ & -> & _ & Hh & _).
    eexists. rewrite Hh. split; [by apply list_lookup_middle|done].
  - intros st l env Hl. split; [|split].
    + intros this password. by rewrite export_heap_stable.
    + apply allocates_keeps; [apply generate_allocates|done].
    + intros record password.
      apply allocates_keeps; [apply import_allocates|done].
Qed.

(** What [import] does with a record that [export] made of an envelope
    whose public key the host generated. *)
Lemma import_of_export `{!HexInverse C} `{!KeyAttributes C}
    `{!SpkiRoundTrip C}
    st0 l0 st1 calls1 given record st2 calls2 :
  generate st0 = (Ok l0, st1, calls1) ->
  export l0 (Some given) st1 = (Ok record, st2, calls2) ->
  exists original wrapped spki w w' pub,
    heap st1 !! l0 = Some original
    /\ subtle_generateKey generate_algorithm true generate_usages w
       = (Ok (KeyPair.mk (privateKey original) (publicKey original)), w')
    /\ Password_wrap given (privateKey original) (salt original) (world st1)
       = (Ok wrapped, world st2)
    /\ subtle_exportKey "spki" (publicKey original) = Ok spki
    /\ base16_decode (Rec.s record) = Ok (salt original)
    /\ base16_decode (Rec.p record) = Ok spki
    /\ base16_decode (Rec.k record) = Ok wrapped
    /\ subtle_importKey "spki" spki import_algorithm true import_usages
       = Ok pub
    /\ subtle_exportKey "spki" pub = Ok spki.
Proof.
  intros Hgen Hexp.
  apply generate_Ok in Hgen as (data & w & pair & _ & Hgen & -> & Hh & _).
  apply export_Ok in Hexp
    as (env & pw & st' & t0 & wrapped & spki
        & Henv & Hres & Hwrap & Hspki & -> & _ & _).
  simpl in Hres. injection Hres as <- <- <-.
  rewrite Hh, list_lookup_middle in Henv by done.
  injection Henv as <-. simpl in *.
  pose proof (generated_attributes _ _ _ _ _ _ _ Hgen)
    as (Htype & _ & Halg & _).
  destruct (spki_round_trip _ _ _ import_usages Hspki Htype)
    as (pub & Himp & Hre); [done|].
  rewrite Halg in Himp.
  exists (mkCipher (KeyPair.privateKey pair) (KeyPair.publicKey pair) data),
    wrapped, spki, w, (world st1), pub.
  rewrite Hh, !(decode_encode C). destruct pair as [priv pb]. simpl in *.
  repeat split; try done. by apply list_lookup_middle.
Qed.

(** C1. Round trip: importing, under the password it was exported with,
    the record that [export] made of a generated envelope succeeds; the
    public key of the new envelope exports to the same SPKI octets as the
    original, its private key decrypts every ciphertext as the original
    does, and so decrypts what the original public key encrypted. *)
Theorem round_trip `{!HexInverse C} `{!KeyAttributes C} `{!SpkiRoundTrip C}
    `{!WrapRoundTrip C} `{!PairDecrypts C}
    password st0 l0 st1 calls1 record st2 calls2 st3 :
  generate st0 = (Ok l0, st1, calls1) ->
  export l0 (Some password) st1 = (Ok record, st2, calls2) ->
  exists original l1 st4 calls4 imported spki,
    heap st1 !! l0 = Some original
    /\ import record (Some password) st3 = (Ok l1, st4, calls4)
    /\ heap st4 !! l1 = Some imported
    /\ subtle_exportKey "spki" (publicKey original) = Ok spki
    /\ subtle_exportKey "spki" (publicKey imported) = Ok spki
    /\ decrypts_alike C (privateKey imported) (privateKey original)
    /\ (forall plaintext w ciphertext w',
          subtle_encrypt (publicKey original) plaintext w
            = (Ok ciphertext, w') ->
          subtle_decrypt (privateKey imported) ciphertext = Ok plaintext)
    /\ salt imported = salt original.
Proof.
  intros Hgen Hexp.
  destruct (import_of_export _ _ _ _ _ _ _ _ Hgen Hexp)
    as (original & wrapped & spki & w & w' & pub
        & Horig & Hpair & Hwrap & Hspki & Hs & Hp & Hk & Himp & Hre).
  destruct (wrap_unwrap _ _ _ _ _ _ _ Hwrap) as (priv & Hunwrap & Halike).
  exists original, (length (heap st3)),
    (mkState (world st3) (heap st3 ++ [mkCipher priv pub (salt original)])).
  eexists _, (mkCipher priv pub (salt original)), spki.
  split; [done|]. rewrite import_supplied, Hs, Hp, Hk, Hunwrap, Himp.
  split; [done|]. split; [by apply list_lookup_middle|]. simpl.
  repeat split; try done.
  intros plaintext w1 ciphertext w2 Henc. rewrite Halike.
  assert (Hdec : "decrypt" ∈ generate_usages) by repeat constructor.
  exact (pair_decrypts C _ _ _ _ _ _ Hpair Hdec _ _ _ _ Henc).
Qed.

(** C2. Wrong password: importing, under another password, the record that
    [export] made of a generated envelope fails; the error is the one
    [unwrap] rejected with, nothing is left behind, and no envelope is
    made. *)
Theorem wrong_password_fails `{!HexInverse C} `{!KeyAttributes C}
    `{!SpkiRoundTrip C} `{!UnwrapFailsClosed C}
    p1 p2 st0 l0 st1 calls1 record st2 calls2 st3 :
  p1 <> p2 ->
  generate st0 = (Ok l0, st1, calls1) ->
  export l0 (Some p1) st1 = (Ok record, st2, calls2) ->
  exists e wrapped salt_ calls4,
    import record (Some p2) st3 = (Err e, st3, calls4)
    /\ base16_decode (Rec.k record) = Ok wrapped
    /\ base16_decode (Rec.s record) = Ok salt_
    /\ Password_unwrap p2 wrapped salt_ = Err e
    /\ EvUnwrap p2 wrapped salt_ ∈ calls4.
Proof.
  intros Hne Hgen Hexp.
  destruct (import_of_export _ _ _ _ _ _ _ _ Hgen Hexp)
    as (original & wrapped & spki & w & w' & pub
        & Horig & Hpair & Hwrap & Hspki & Hs & Hp & Hk & Himp & Hre).
  destruct (unwrap_wrong_password _ _ _ _ _ _ _ _ Hne Hwrap) as (e & Hunwrap).
  exists e, wrapped, (salt original). eexists.
  rewrite import_supplied, Hs, Hp, Hk, Hunwrap, Himp.
  repeat split; try done. repeat constructor.
Qed.

End Claims.

(** ** The concrete collaborators keep the laws *)

Module ToyLaws.

Lemma octet_round_trip (b : byte) :
  Base16.value (Base16.digit (Byte.to_N b / 16)) = Some (Byte.to_N b / 16)%N
  /\ Base16.value (Base16.digit (Byte.to_N b mod 16))
     = Some (Byte.to_N b mod 16)%N
  /\ Base16.octet (Byte.to_N b / 16) (Byte.to_N b mod 16) = b.
Proof. destruct b; vm_compute; by repeat split. Qed.

Lemma decode_encode_bytes (data : bytes) :
  Base16.decode (Base16.encode data) = Some data.
Proof.
  induction data as [|b rest IH]; [done|].
  destruct (octet_round_trip b) as (Hhi & Hlo & Hb).
  cbn [Base16.encode Base16.decode]. by rewrite Hhi, Hlo, IH, Hb.
Qed.



Lemma hex_inverse_holds : HexInverse Toy.collaborators.
Proof.
  intros data. simpl. unfold Toy.decode. by rewrite decode_encode_bytes.
Qed.


Lemma random_fills_holds : RandomFills Toy.collaborators.
Proof.
  intros n w data w'. simpl. unfold Toy.getRandomValues.
  intros [= <- _]. by rewrite length_map, length_seq.
Qed.

Lemma key_attributes_hold : KeyAttributes Toy.collaborators.
Proof.
  split.
  - intros alg ext requested w pair w'. simpl. unfold Toy.generateKey.
    destruct (String.eqb _ _); [|done]. by intros [= <- _].
  - intros data alg ext requested key. simpl. unfold Toy.importKey. simpl.
    destruct (bool_decide _); [|done].
    destruct data as [|tag [|m [|]]]; try done.
    destruct (bool_decide _); [|done]. by intros [= <-].
Qed.

Lemma spki_round_trip_holds : SpkiRoundTrip Toy.collaborators.
Proof.
  intros key data requested. simpl. unfold Toy.exportKey, Toy.importKey.
  simpl. destruct (_ && _); [|done]. intros [= <-] _ Hsub.
  rewrite bool_decide_eq_true_2 by done. simpl. by eexists.
Qed.

Lemma wrap_round_trip_holds : WrapRoundTrip Toy.collaborators.
Proof.
  intros password key salt_ w wrapped w'. simpl. unfold Toy.wrap.
  destruct (String.eqb _ _) eqn:Htype; [|done].
  destruct (Toy.extractable key); [|done].
  destruct (bool_decide _) eqn:Husage; [|done]. simpl. intros [= <- _].
  eexists. unfold Toy.unwrap. rewrite bool_decide_eq_true_2 by done.
  split; [done|]. intros ciphertext. simpl. unfold Toy.decrypt. simpl.
  by rewrite Htype, Husage.
Qed.

Lemma password_octets (p1 p2 : string) :
  list_byte_of_string p1 = list_byte_of_string p2 -> p1 = p2.
Proof.
  intros H. rewrite <- (string_of_list_byte_of_string p1),
    <- (string_of_list_byte_of_string p2). by rewrite H.
Qed.

Lemma unwrap_fails_closed_holds : UnwrapFailsClosed Toy.collaborators.
Proof.
  intros p1 p2 key salt_ w wrapped w' Hne. simpl. unfold Toy.wrap.
  destruct (_ && _); [|done]. intros [= <- _].
  exists Toy.UnwrapFailure. unfold Toy.unwrap.
  rewrite bool_decide_eq_false_2; [done|].
  intros H%app_inv_tail. by apply Hne, password_octets.
Qed.

Lemma pair_decrypts_holds : PairDecrypts Toy.collaborators.
Proof.
  intros alg ext requested w pair w'. simpl. unfold Toy.generateKey.
  destruct (String.eqb _ _); [|done]. intros [= <- _] Hdec.
  intros plaintext w1 ciphertext w2. unfold Toy.encrypt, Toy.decrypt. simpl.
  destruct (bool_decide _); [|done]. intros [= <- _].
  rewrite !bool_decide_eq_true_2; [done|done|].
  apply list_elem_of_filter. split; [done|]. repeat constructor.
Qed.

End ToyLaws.

(** ** The claims on concrete runs *)

Lemma round_trip_witness :
  Sample.generated
    = (Ok 0, state_after Sample.generated, calls_of Sample.generated)
  /\ Sample.exporting
     = (Ok Toy.exported, state_after Sample.exporting,
        calls_of Sample.exporting)
  /\ exists original l1 st4 calls4 imported spki,
       heap (state_after Sample.generated) !! 0 = Some original
       /\ @import Sample.C Toy.exported (Some "pw")
                  (state_after Sample.exporting)
          = (Ok l1, st4, calls4)
       /\ heap st4 !! l1 = Some imported
       /\ Toy.exportKey "spki" (publicKey original) = Ok spki
       /\ Toy.exportKey "spki" (publicKey imported) = Ok spki
       /\ decrypts_alike Sample.C (privateKey imported) (privateKey original)
       /\ (forall plaintext w ciphertext w',
             Toy.encrypt (publicKey original) plaintext w
               = (Ok ciphertext, w') ->
             Toy.decrypt (privateKey imported) ciphertext = Ok plaintext)
       /\ salt imported = salt original.
Proof.
  assert (Hg : Sample.generated
               = (Ok 0, state_after Sample.generated,
                  calls_of Sample.generated)) by reflexivity.
  assert (Hx : Sample.exporting
               = (Ok Toy.exported, state_after Sample.exporting,
                  calls_of Sample.exporting)) by reflexivity.
  split; [exact Hg|]. split; [exact Hx|].
  exact (@round_trip Sample.C ToyLaws.hex_inverse_holds
           ToyLaws.key_attributes_hold ToyLaws.spki_round_trip_holds
           ToyLaws.wrap_round_trip_holds ToyLaws.pair_decrypts_holds
           "pw" _ _ _ _ _ _ _
           (state_after Sample.exporting) Hg Hx).
Defined.

Lemma wrong_password_fails_witness :
  "pw" <> "pW"
  /\ exists e wrapped salt_ calls4,
       @import Sample.C Toy.exported (Some "pW")
               (state_after Sample.exporting)
       = (Err e, state_after Sample.exporting, calls4)
       /\ Toy.decode (Rec.k Toy.exported) = Ok wrapped
       /\ Toy.decode (Rec.s Toy.exported) = Ok salt_
       /\ Toy.unwrap "pW" wrapped salt_ = Err e
       /\ @EvUnwrap Sample.C "pW" wrapped salt_ ∈ calls4.
Proof.
  assert (Hne : "pw" <> "pW") by discriminate.
  split; [exact Hne|].
  refine (@wrong_password_fails Sample.C ToyLaws.hex_inverse_holds
            ToyLaws.key_attributes_hold ToyLaws.spki_round_trip_holds
            ToyLaws.unwrap_fails_closed_holds "pw" "pW"
            (Toy.start Toy.forgetful) 0 (state_after Sample.generated)
            (calls_of Sample.generated) Toy.exported
            (state_after Sample.exporting) (calls_of Sample.exporting)
            (state_after Sample.exporting) Hne _ _);
    reflexivity.
Defined.



Lemma envelope_salt_witness :
  Sample.generated
    = (Ok 0, state_after Sample.generated, calls_of Sample.generated)
  /\ exists env,
       heap (state_after Sample.generated) !! 0 = Some env
       /\ length (salt env) = 16.
Proof.
  assert (Hg : Sample.generated
               = (Ok 0, state_after Sample.generated,
                  calls_of Sample.generated)) by reflexivity.
  split; [exact Hg|].
  exact (proj1 (@envelope_salt Sample.C ToyLaws.random_fills_holds) _ _ _ _ Hg).
Defined.

(** C9 as it is stated fails for [import]: the record that [export] makes
    of an envelope with a salt of one octet is imported, and the envelope
    that comes back has that salt of one octet. *)
Lemma import_short_salt :
  result_of (@export Sample.C 0 (Some "pw")
               (@mkState Sample.C Toy.forgetful [Sample.short_envelope]))
    = Ok Sample.short_record
  /\ result_of (@import Sample.C Sample.short_record (Some "pw")
                  (Toy.start Toy.forgetful))
     = Ok 0
  /\ heap (state_after (@import Sample.C Sample.short_record (Some "pw")
                          (Toy.start Toy.forgetful))) !! 0
     = Some Sample.short_envelope
  /\ length (salt Sample.short_envelope) <> 16.
Proof.
  split; [reflexivity|]. split; [reflexivity|]. split; [reflexivity|].
  simpl. lia.
Qed.

Lemma export_salt_stable_witness :
  heap (state_after Sample.generated) !! 0 = Some Toy.envelope
  /\ Sample.exporting
     = (Ok Toy.exported, state_after Sample.exporting,
        calls_of Sample.exporting)
  /\ Rec.s Toy.exported = Base16.encode (salt Toy.envelope)
  /\ Toy.decode (Rec.s Toy.exported) = Ok (salt Toy.envelope).
Proof.
  assert (Hl : heap (state_after Sample.generated) !! 0 = Some Toy.envelope)
    by reflexivity.
  assert (Hx : Sample.exporting
               = (Ok Toy.exported, state_after Sample.exporting,
                  calls_of Sample.exporting)) by reflexivity.
  split; [exact Hl|]. split; [exact Hx|].
  exact (@export_salt_stable Sample.C ToyLaws.hex_inverse_holds 0
           (Some "pw") (state_after Sample.generated) Toy.envelope
           Toy.exported _ _ Hl Hx).
Defined.

Lemma generate_policy_witness :
  Sample.generated
    = (Ok 0, state_after Sample.generated, calls_of Sample.generated)
  /\ calls_of Sample.generated
     = [EvGetRandomValues 16;
        EvGenerateKey
          (KeyGen.mk "RSA-OAEP" 4096 [x01; x00; x01] "SHA-256") true
          ["encrypt"; "decrypt"; "wrapKey"; "unwrapKey"]].
Proof.
  assert (Hg : Sample.generated
               = (Ok 0, state_after Sample.generated,
                  calls_of Sample.generated)) by reflexivity.
  split; [exact Hg|].
  exact (proj1 (@generate_policy Sample.C ToyLaws.random_fills_holds
                  ToyLaws.key_attributes_hold _ _ _ _ Hg)).
Defined.

Lemma public_key_usages_agree_witness :
  Sample.importing
    = (Ok 0, state_after Sample.importing, calls_of Sample.importing)
  /\ Sample.generated
     = (Ok 0, state_after Sample.generated, calls_of Sample.generated)
  /\ (exists imported spki,
        heap (state_after Sample.importing) !! 0 = Some imported
        /\ @EvImportKey Sample.C "spki" spki import_algorithm true
                        ["encrypt"; "wrapKey"]
           ∈ calls_of Sample.importing
        /\ Toy.importKey "spki" spki import_algorithm true
                         ["encrypt"; "wrapKey"]
           = Ok (publicKey imported)
        /\ Toy.usages (publicKey imported) = ["encrypt"; "wrapKey"])
  /\ (exists generated,
        heap (state_after Sample.generated) !! 0 = Some generated
        /\ Toy.usages (publicKey generated) = ["encrypt"; "wrapKey"]).
Proof.
  assert (Hi : Sample.importing
               = (Ok 0, state_after Sample.importing,
                  calls_of Sample.importing)) by reflexivity.
  assert (Hg : Sample.generated
               = (Ok 0, state_after Sample.generated,
                  calls_of Sample.generated)) by reflexivity.
  pose proof (@public_key_usages_agree Sample.C ToyLaws.key_attributes_hold)
    as (Himported & _ & Hgenerated & _).
  split; [exact Hi|]. split; [exact Hg|]. split.
  - exact (Himported _ _ _ _ _ _ Hi).
  - exact (Hgenerated _ _ _ _ Hg).
Defined.

Lemma key_handles_extractable_witness :
  (exists env,
     heap (state_after Sample.generated) !! 0 = Some env
     /\ Toy.extractable (privateKey env) = true
     /\ Toy.extractable (publicKey env) = true)
  /\ Toy.decode (Rec.s Toy.exported) = Ok (salt Toy.envelope)
  /\ Toy.decode (Rec.p Toy.exported) = Ok Sample.spki_octets
  /\ Toy.decode (Rec.k Toy.exported) = Ok Sample.wrapped_octets
  /\ Toy.unwrap "pw" Sample.wrapped_octets (salt Toy.envelope)
     = Ok (privateKey Toy.envelope)
  /\ Toy.importKey "spki" Sample.spki_octets import_algorithm true
                   import_usages
     = Ok (publicKey Toy.envelope)
  /\ exists l st' calls env,
       @import Sample.C Toy.exported (Some "pw") (Toy.start Toy.forgetful)
       = (Ok l, st', calls)
       /\ @EvImportKey Sample.C "spki" Sample.spki_octets import_algorithm
                       true import_usages ∈ calls
       /\ heap st' !! l = Some env
       /\ publicKey env = publicKey Toy.envelope
       /\ Toy.extractable (publicKey env) = true.
Proof.
  assert (Hg : Sample.generated
               = (Ok 0, state_after Sample.generated,
                  calls_of Sample.generated)) by reflexivity.
  assert (Hs : Toy.decode (Rec.s Toy.exported) = Ok (salt Toy.envelope))
    by reflexivity.
  assert (Hp : Toy.decode (Rec.p Toy.exported) = Ok Sample.spki_octets)
    by reflexivity.
  assert (Hk : Toy.decode (Rec.k Toy.exported) = Ok Sample.wrapped_octets)
    by reflexivity.
  assert (Hu : Toy.unwrap "pw" Sample.wrapped_octets (salt Toy.envelope)
               = Ok (privateKey Toy.envelope)) by reflexivity.
  assert (Hi : Toy.importKey "spki" Sample.spki_octets import_algorithm true
                 import_usages
               = Ok (publicKey Toy.envelope)) by reflexivity.
  pose proof (@key_handles_extractable Sample.C ToyLaws.key_attributes_hold)
    as (_ & _ & _ & Hgenerated & _ & _ & Himport).
  split; [exact (proj2 (Hgenerated _ _ _ _ Hg))|].
  do 5 (split; [assumption|]).
  exact (Himport Toy.exported (Some "pw") (Toy.start Toy.forgetful) "pw"
           _ _ _ _ _ eq_refl Hs Hp Hk Hu Hi).
Defined.

Lemma password_resolution_witness :
  Toy.recall Toy.forgetful = (Err Toy.PasswordUnavailable, Toy.forgetful)
  /\ @export Sample.C 0 None (Toy.holding Toy.forgetful)
     = (Err Toy.PasswordUnavailable, Toy.holding Toy.forgetful, [EvRecall])
  /\ @import Sample.C Toy.exported None (Toy.holding Toy.mindful)
     = after_recall (@import Sample.C Toy.exported (Some "hunter2")
                       (Toy.holding Toy.mindful))
  /\ Toy.wrap "pw" (privateKey Toy.envelope) (salt Toy.envelope)
              (Toy.mkWorld None 24 false)
     = (Ok Sample.wrapped_octets, Toy.mkWorld None 25 false)
  /\ @export Sample.C 0 (Some "pw") (Toy.holding (Toy.mkWorld None 24 false))
     = (Ok (Rec.mk (Base16.encode Sample.wrapped_octets)
                   (Base16.encode Sample.spki_octets)
                   (Base16.encode (salt Toy.envelope))),
        Toy.holding (Toy.mkWorld None 25 false),
        [@EvWrap Sample.C "pw" (privateKey Toy.envelope) (salt Toy.envelope);
         EvExportKey "spki" (publicKey Toy.envelope);
         EvEncode Sample.wrapped_octets; EvEncode Sample.spki_octets;
         EvEncode (salt Toy.envelope)])
  /\ @import Sample.C Toy.exported (Some "pw") (Toy.start Toy.forgetful)
     = (Ok 0, Toy.holding Toy.forgetful,
        [@EvDecode Sample.C (Rec.s Toy.exported);
         EvDecode (Rec.p Toy.exported); EvDecode (Rec.k Toy.exported);
         @EvUnwrap Sample.C "pw" Sample.wrapped_octets (salt Toy.envelope);
         EvImportKey "spki" Sample.spki_octets import_algorithm true
                     import_usages]).
Proof.
  assert (Hno : Toy.recall Toy.forgetful
                = (Err Toy.PasswordUnavailable, Toy.forgetful))
    by reflexivity.
  assert (Hyes : Toy.recall Toy.mindful = (Ok "hunter2", Toy.mindful))
    by reflexivity.
  assert (Hwrap : Toy.wrap "pw" (privateKey Toy.envelope)
                    (salt Toy.envelope) (Toy.mkWorld None 24 false)
                  = (Ok Sample.wrapped_octets, Toy.mkWorld None 25 false))
    by reflexivity.
  pose proof (@password_resolution Sample.C)
    as (_ & _ & _ & Hexport & _ & Himport & _ & Hrecalled & Hfails & _).
  split; [exact Hno|]. split; [|split; [|split; [exact Hwrap|split]]].
  - exact (Hfails 0 (Toy.holding Toy.forgetful) _ _ Hno).
  - exact (Hrecalled Toy.exported (Toy.holding Toy.mindful) _ _ Hyes).
  - exact (Hexport 0 "pw" (Toy.holding (Toy.mkWorld None 24 false))
             Toy.envelope Sample.wrapped_octets (Toy.mkWorld None 25 false)
             Sample.spki_octets eq_refl Hwrap eq_refl).
  - exact (Himport Toy.exported "pw" (Toy.start Toy.forgetful)
             (salt Toy.envelope) Sample.spki_octets Sample.wrapped_octets
             (privateKey Toy.envelope) (publicKey Toy.envelope)
             eq_refl eq_refl eq_refl eq_refl eq_refl).
Defined.

Lemma envelope_immutable_witness :
  heap (Toy.holding Toy.forgetful) !! 0 = Some Toy.envelope
  /\ heap (state_after (@export Sample.C 0 (Some "pw")
                          (Toy.holding Toy.forgetful)))
     = [Toy.envelope]
  /\ heap (state_after (@generate Sample.C (Toy.holding Toy.forgetful))) !! 0
     = Some Toy.envelope
  /\ heap (state_after (@import Sample.C Toy.exported (Some "pw")
                          (Toy.holding Toy.forgetful))) !! 0
     = Some Toy.envelope.
Proof.
  assert (Hl : heap (Toy.holding Toy.forgetful) !! 0 = Some Toy.envelope)
    by reflexivity.
  pose proof (@envelope_immutable Sample.C (Toy.holding Toy.forgetful))
    as (Hexport & Hgenerate & _ & Himport & _).
  split; [exact Hl|]. split; [exact (Hexport 0 (Some "pw"))|].
  split; [exact (Hgenerate 0 Toy.envelope Hl)|].
  exact (Himport Toy.exported (Some "pw") 0 Toy.envelope Hl).
Defined.

(** * Further properties of the three operations *)

Section Further.
Context {C : Collaborators}.

(** X1. What a successful [export] returns: [k] is the encoding of what
    [wrap] gave for the private key and the salt of the envelope under the
    password passed, [p] the encoding of the SPKI export of its public key,
    [s] the encoding of its salt; five calls are made, in this order, and
    the world changes only as [wrap] changes it. *)
Theorem export_record_fields this password st env record st' calls :
  heap st !! this = Some env ->
  export this (Some password) st = (Ok record, st', calls) ->
  exists wrapped spki,
    Password_wrap password (privateKey env) (salt env) (world st)
      = (Ok wrapped, world st')
    /\ subtle_exportKey "spki" (publicKey env) = Ok spki
    /\ record = Rec.mk (base16_encode wrapped) (base16_encode spki)
                       (base16_encode (salt env))
    /\ calls = [EvWrap password (privateKey env) (salt env);
                EvExportKey "spki" (publicKey env);
                EvEncode wrapped; EvEncode spki; EvEncode (salt env)].
Proof.
  intros Hthis. rewrite export_supplied, Hthis.
  destruct (Password_wrap _ _ _ _) as [[wrapped|e] w]; [|done].
  destruct (subtle_exportKey _ _) as [spki|e]; [|done].
  intros [= <- <- <-]. by exists wrapped, spki.
Qed.

(** X2. How [export] fails.  [wrap] and [exportKey] are both called before
    either is awaited.  When [wrap] rejects, [export] rejects with its
    reason and nothing is encoded, whatever [exportKey] did.  When [wrap]
    succeeds and [exportKey] rejects, [export] rejects with the reason of
    [exportKey], after the wrapped key has been encoded. *)
Theorem export_failure_order this password st env w :
  heap st !! this = Some env ->
  (forall e,
     Password_wrap password (privateKey env) (salt env) (world st)
       = (Err e, w) ->
     export this (Some password) st
     = (Err e, mkState w (heap st),
        [EvWrap password (privateKey env) (salt env);
         EvExportKey "spki" (publicKey env)]))
  /\ (forall wrapped e,
        Password_wrap password (privateKey env) (salt env) (world st)
          = (Ok wrapped, w) ->
        subtle_exportKey "spki" (publicKey env) = Err e ->
        export this (Some password) st
        = (Err e, mkState w (heap st),
           [EvWrap password (privateKey env) (salt env);
            EvExportKey "spki" (publicKey env); EvEncode wrapped])).
Proof.
  intros Hthis. split.
  - intros e Hwrap. by rewrite export_supplied, Hthis, Hwrap.
  - intros wrapped e Hwrap Hspki.
    by rewrite export_supplied, Hthis, Hwrap, Hspki.
Qed.

(** X3. When [import] succeeds.  With a password passed, [import] returns
    an envelope exactly when the three fields decode and both [unwrap] and
    [importKey] succeed; the envelope then holds the key [unwrap] gave, the
    key [importKey] gave and the octets [s] decoded to, and the world is
    as it was. *)
Theorem import_succeeds_iff record password st l st' calls :
  import record (Some password) st = (Ok l, st', calls)
  <-> exists salt_ spki wrapped priv pub,
        base16_decode (Rec.s record) = Ok salt_
        /\ base16_decode (Rec.p record) = Ok spki
        /\ base16_decode (Rec.k record) = Ok wrapped
        /\ Password_unwrap password wrapped salt_ = Ok priv
        /\ subtle_importKey "spki" spki import_algorithm true import_usages
           = Ok pub
        /\ l = length (heap st)
        /\ st' = mkState (world st) (heap st ++ [mkCipher priv pub salt_])
        /\ calls = [EvDecode (Rec.s record); EvDecode (Rec.p record);
                    EvDecode (Rec.k record);
                    EvUnwrap password wrapped salt_;
                    EvImportKey "spki" spki import_algorithm true
                                import_usages].
Proof.
  rewrite import_supplied. split.
  - destruct (base16_decode (Rec.s record)) as [salt_|]; [|done].
    destruct (base16_decode (Rec.p record)) as [spki|]; [|done].
    destruct (base16_decode (Rec.k record)) as [wrapped|]; [|done].
    destruct (Password_unwrap _ _ _) as [priv|] eqn:Hu;
      destruct (subtle_importKey _ _ _ _ _) as [pub|] eqn:Hi; try done.
    intros [= <- <- <-]. by exists salt_, spki, wrapped, priv, pub.
  - intros (salt_ & spki & wrapped & priv & pub
            & -> & -> & -> & -> & -> & -> & -> & ->). done.
Qed.

(** X4. How [import] fails once the record is decoded.  [unwrap] and
    [importKey] are both called, whatever either does.  A failed [import]
    leaves the state as it was and its error is the reason of [unwrap] or
    the reason of [importKey]; when only one of the two rejects, it is the
    reason of that one. *)
Theorem import_join record password st salt_ spki wrapped :
  base16_decode (Rec.s record) = Ok salt_ ->
  base16_decode (Rec.p record) = Ok spki ->
  base16_decode (Rec.k record) = Ok wrapped ->
  let unwrapping := Password_unwrap password wrapped salt_ in
  let importing :=
    subtle_importKey "spki" spki import_algorithm true import_usages in
  let run := import record (Some password) st in
  calls_of run
    = [EvDecode (Rec.s record); EvDecode (Rec.p record);
       EvDecode (Rec.k record); EvUnwrap password wrapped salt_;
       EvImportKey "spki" spki import_algorithm true import_usages]
  /\ (forall e,
        result_of run = Err e ->
        state_after run = st /\ (unwrapping = Err e \/ importing = Err e))
  /\ (forall priv e,
        unwrapping = Ok priv -> importing = Err e -> result_of run = Err e)
  /\ (forall e pub,
        unwrapping = Err e -> importing = Ok pub -> result_of run = Err e).
Proof.
  intros Hs Hp Hk unwrapping importing run. subst run.
  rewrite import_supplied, Hs, Hp, Hk. fold unwrapping importing.
  destruct unwrapping as [priv|e1], importing as [pub|e2]; simpl.
  - repeat split; try done.
  - split; [done|]. split; [|split; [|done]].
    + intros e [= <-]. auto.
    + by intros ? ? [= <-] [= <-].
  - split; [done|]. split; [|split; [done|]].
    + intros e [= <-]. auto.
    + by intros ? ? [= <-] [= <-].
  - split; [done|]. split; [|done].
    intros e He. split; [by destruct (first_rejects_first (world st))|].
    destruct (first_rejects_first (world st)); simpl in He;
      injection He as <-; auto.
Qed.

(** X5. How [generate] fails.  When [getRandomValues] throws, [generate]
    rejects with what was thrown and [generateKey] is not called.  When
    [generateKey] rejects, [generate] rejects with its reason.  In both
    cases no envelope is made. *)
Theorem generate_failures st :
  (forall e w,
     crypto_getRandomValues 16 (world st) = (Err e, w) ->
     generate st = (Err e, mkState w (heap st), [EvGetRandomValues 16]))
  /\ (forall data w e w',
        crypto_getRandomValues 16 (world st) = (Ok data, w) ->
        subtle_generateKey generate_algorithm true generate_usages w
          = (Err e, w') ->
        generate st
        = (Err e, mkState w' (heap st),
           [EvGetRandomValues 16;
            EvGenerateKey generate_algorithm true generate_usages])).
Proof.
  split.
  - intros e w Hrand. by rewrite generate_run, Hrand.
  - intros data w e w' Hrand Hgen. by rewrite generate_run, Hrand, Hgen.
Qed.

(** X6. What each operation never calls.  [generate] calls only
    [getRandomValues] and [generateKey]: no password is recalled or used
    and the codec is not touched.  [export] calls only [recall], [wrap],
    [exportKey] and [encode]; [import] calls only [recall], [decode],
    [unwrap] and [importKey]. *)
Theorem operations_keep_to_their_calls :
  (forall st, Forall generate_call (calls_of (generate st)))
  /\ (forall this password st,
        Forall export_call (calls_of (export this password st)))
  /\ (forall record password st,
        Forall import_call (calls_of (import record password st))).
Proof.
  split; [|split].
  - unfold generate, generateKey. walk.
  - intros this password. unfold export, wrap, exportKey, encode. walk.
  - intros record password. unfold import, decode, unwrap, importKey. walk.
Qed.

(** X7. The fields left in the clear do not depend on the password: two
    successful exports of one envelope, under any passwords and at any
    time, agree on [p] and on [s]. *)
Theorem clear_fields_fixed this env
    password1 st1 record1 st1' calls1 password2 st2 record2 st2' calls2 :
  heap st1 !! this = Some env ->
  heap st2 !! this = Some env ->
  export this password1 st1 = (Ok record1, st1', calls1) ->
  export this password2 st2 = (Ok record2, st2', calls2) ->
  Rec.p record1 = Rec.p record2 /\ Rec.s record1 = Rec.s record2.
Proof.
  intros H1 H2 Hx1 Hx2.
  apply export_Ok in Hx1
    as (e1 & ? & ? & ? & ? & spki1 & He1 & _ & _ & Hs1 & -> & _).
  apply export_Ok in Hx2
    as (e2 & ? & ? & ? & ? & spki2 & He2 & _ & _ & Hs2 & -> & _).
  assert (e1 = env) as -> by congruence.
  assert (e2 = env) as -> by congruence.
  simpl. split; [|done]. congruence.
Qed.

(** X10. No partial envelope: a failed [generate] or [import] leaves the
    store of instances exactly as it was, and a successful one keeps every
    instance as it was and adds exactly one, at the reference it
    returns. *)
Theorem no_partial_envelope st :
  (forall e,
     result_of (generate st) = Err e ->
     heap (state_after (generate st)) = heap st)
  /\ (forall l,
        result_of (generate st) = Ok l ->
        l = length (heap st)
        /\ exists env,
             heap (state_after (generate st)) = heap st ++ [env]
             /\ heap (state_after (generate st)) !! l = Some env)
  /\ (forall record password e,
        result_of (import record password st) = Err e ->
        heap (state_after (import record password st)) = heap st)
  /\ (forall record password l,
        result_of (import record password st) = Ok l ->
        l = length (heap st)
        /\ exists env,
             heap (state_after (import record password st))
             = heap st ++ [env]
             /\ heap (state_after (import record password st)) !! l
                = Some env).
Proof.
  assert (Hfail : forall m : M ref, allocates m -> forall e,
            result_of (m st) = Err e -> heap (state_after (m st)) = heap st).
  { intros m Hm e He. specialize (Hm st). by rewrite He in Hm. }
  assert (Hone : forall m : M ref, allocates m -> forall l,
            result_of (m st) = Ok l ->
            l = length (heap st)
            /\ exists env,
                 heap (state_after (m st)) = heap st ++ [env]
                 /\ heap (state_after (m st)) !! l = Some env).
  { intros m Hm l Hl. specialize (Hm st). rewrite Hl in Hm.
    destruct Hm as [-> [o ->]]. split; [done|].
    exists o. split; [done|]. by apply list_lookup_middle. }
  split; [apply Hfail, generate_allocates|].
  split; [apply Hone, generate_allocates|].
  split; intros record password.
  - apply Hfail, import_allocates.
  - apply Hone, import_allocates.
Qed.

(** X8. An imported envelope can be exported and imported again: the
    record [export] makes of an envelope that [import] made is imported,
    under the password of that export, to an envelope with the same salt,
    a public key that exports to the same SPKI octets and has the same
    usages, and a private key that decrypts as the first one does. *)
Theorem reimport_round_trip `{!HexInverse C} `{!KeyAttributes C}
    `{!SpkiRoundTrip C} `{!WrapRoundTrip C}
    record password st l st' calls given record' st'' calls' st3 :
  import record password st = (Ok l, st', calls) ->
  export l (Some given) st' = (Ok record', st'', calls') ->
  exists first l2 st4 calls4 second spki,
    heap st' !! l = Some first
    /\ import record' (Some given) st3 = (Ok l2, st4, calls4)
    /\ heap st4 !! l2 = Some second
    /\ salt second = salt first
    /\ subtle_exportKey "spki" (publicKey first) = Ok spki
    /\ subtle_exportKey "spki" (publicKey second) = Ok spki
    /\ key_usages (publicKey second) = key_usages (publicKey first)
    /\ decrypts_alike C (privateKey second) (privateKey first).
Proof.
  intros Himp Hexp.
  apply import_Ok in Himp
    as (pw & st0 & t0 & salt_ & spki0 & wrapped0 & priv & pub
        & _ & _ & _ & _ & _ & Hpub & -> & _ & Hh & _).
  apply export_Ok in Hexp
    as (env & pw' & st1 & t1 & wrapped & spki
        & Henv & Hres & Hwrap & Hspki & -> & _ & _).
  rewrite Hh, list_lookup_middle in Henv by done. injection Henv as <-.
  simpl in *.
  pose proof (imported_attributes _ _ _ _ _ _ Hpub)
    as (Htype & Halg & _ & Huse).
  destruct (spki_round_trip _ _ _ import_usages Hspki Htype)
    as (pub' & Himp' & Hre); [done|].
  rewrite Halg in Himp'.
  injection Hres as <- <- <-.
  destruct (wrap_unwrap _ _ _ _ _ _ _ Hwrap) as (priv' & Hunwrap & Halike).
  pose proof (imported_attributes _ _ _ _ _ _ Himp') as (_ & _ & _ & Huse').
  exists (mkCipher priv pub salt_), (length (heap st3)),
    (mkState (world st3) (heap st3 ++ [mkCipher priv' pub' salt_])).
  eexists _, (mkCipher priv' pub' salt_), spki.
  rewrite Hh. split; [by apply list_lookup_middle|].
  rewrite import_supplied. simpl.
  rewrite !(decode_encode C), Hunwrap, Himp'.
  split; [done|]. split; [by apply list_lookup_middle|]. simpl.
  repeat split; try done. congruence.
Qed.

(** X9. [export] after [import] keeps the salt of the record: the [s]
    field of what [export] makes of an imported envelope decodes to the
    octets the [s] field of the imported record decoded to. *)
Theorem export_after_import `{!HexInverse C}
    record password st l st' calls password' record' st'' calls' :
  import record password st = (Ok l, st', calls) ->
  export l password' st' = (Ok record', st'', calls') ->
  base16_decode (Rec.s record') = base16_decode (Rec.s record).
Proof.
  intros Himp Hexp.
  apply import_Ok in Himp
    as (pw & st0 & t0 & salt_ & spki0 & wrapped0 & priv & pub
        & _ & Hs & _ & _ & _ & _ & -> & _ & Hh & _).
  apply export_Ok in Hexp
    as (env & pw' & st1 & t1 & wrapped & spki
        & Henv & _ & _ & _ & -> & _ & _).
  rewrite Hh, list_lookup_middle in Henv by done. injection Henv as <-.
  simpl. by rewrite (decode_encode C), Hs.
Qed.

End Further.

(** ** The further properties on concrete runs *)

Lemma export_record_fields_witness :
  heap (state_after Sample.generated) !! 0 = Some Toy.envelope
  /\ Sample.exporting
     = (Ok Toy.exported, state_after Sample.exporting,
        calls_of Sample.exporting)
  /\ exists wrapped spki,
       Toy.wrap "pw" (privateKey Toy.envelope) (salt Toy.envelope)
                (world (state_after Sample.generated))
       = (Ok wrapped, world (state_after Sample.exporting))
       /\ Toy.exportKey "spki" (publicKey Toy.envelope) = Ok spki
       /\ Toy.exported
          = Rec.mk (Base16.encode wrapped) (Base16.encode spki)
                   (Base16.encode (salt Toy.envelope))
       /\ calls_of Sample.exporting
          = [@EvWrap Sample.C "pw" (privateKey Toy.envelope)
                     (salt Toy.envelope);
             EvExportKey "spki" (publicKey Toy.envelope);
             EvEncode wrapped; EvEncode spki;
             EvEncode (salt Toy.envelope)].
Proof.
  assert (Hl : heap (state_after Sample.generated) !! 0 = Some Toy.envelope)
    by reflexivity.
  assert (Hx : Sample.exporting
               = (Ok Toy.exported, state_after Sample.exporting,
                  calls_of Sample.exporting)) by reflexivity.
  split; [exact Hl|]. split; [exact Hx|].
  exact (@export_record_fields Sample.C 0 "pw" (state_after Sample.generated)
           Toy.envelope Toy.exported _ _ Hl Hx).
Defined.

Lemma export_failure_order_witness :
  Toy.wrap "pw" (privateKey Sample.locked_envelope)
           (salt Sample.locked_envelope) Toy.forgetful
    = (Err Toy.InvalidAccess, Toy.forgetful)
  /\ @export Sample.C 0 (Some "pw")
             (@mkState Sample.C Toy.forgetful [Sample.locked_envelope])
     = (Err Toy.InvalidAccess,
        @mkState Sample.C Toy.forgetful [Sample.locked_envelope],
        [@EvWrap Sample.C "pw" (privateKey Sample.locked_envelope)
                 (salt Sample.locked_envelope);
         EvExportKey "spki" (publicKey Sample.locked_envelope)]).
Proof.
  assert (Hw : Toy.wrap "pw" (privateKey Sample.locked_envelope)
                 (salt Sample.locked_envelope) Toy.forgetful
               = (Err Toy.InvalidAccess, Toy.forgetful)) by reflexivity.
  split; [exact Hw|].
  exact (proj1 (@export_failure_order Sample.C 0 "pw"
                  (@mkState Sample.C Toy.forgetful [Sample.locked_envelope])
                  Sample.locked_envelope Toy.forgetful eq_refl)
           Toy.InvalidAccess Hw).
Defined.

Lemma import_succeeds_iff_witness :
  Sample.importing
    = (Ok 0, state_after Sample.importing, calls_of Sample.importing)
  /\ exists salt_ spki wrapped priv pub,
       Toy.decode (Rec.s Toy.exported) = Ok salt_
       /\ Toy.decode (Rec.p Toy.exported) = Ok spki
       /\ Toy.decode (Rec.k Toy.exported) = Ok wrapped
       /\ Toy.unwrap "pw" wrapped salt_ = Ok priv
       /\ Toy.importKey "spki" spki import_algorithm true import_usages
          = Ok pub
       /\ 0 = length (heap (Toy.start Toy.forgetful))
       /\ state_after Sample.importing
          = @mkState Sample.C Toy.forgetful [@mkCipher Sample.C priv pub salt_]
       /\ calls_of Sample.importing
          = [@EvDecode Sample.C (Rec.s Toy.exported);
             EvDecode (Rec.p Toy.exported); EvDecode (Rec.k Toy.exported);
             @EvUnwrap Sample.C "pw" wrapped salt_;
             EvImportKey "spki" spki import_algorithm true import_usages].
Proof.
  assert (Hi : Sample.importing
               = (Ok 0, state_after Sample.importing,
                  calls_of Sample.importing)) by reflexivity.
  split; [exact Hi|].
  exact (proj1 (@import_succeeds_iff Sample.C Toy.exported "pw"
                  (Toy.start Toy.forgetful) 0 _ _) Hi).
Defined.

Lemma import_join_witness :
  Toy.unwrap "pW"
    [x18; x17; x70; x77; x07; x08; x09; x0a; x0b; x0c; x0d; x0e;
     x0f; x10; x11; x12; x13; x14; x15; x16] (salt Toy.envelope)
    = Err Toy.UnwrapFailure
  /\ result_of (@import Sample.C Toy.exported (Some "pW")
                  (Toy.start Toy.forgetful))
     = Err Toy.UnwrapFailure.
Proof.
  assert (Hu : Toy.unwrap "pW"
                 [x18; x17; x70; x77; x07; x08; x09; x0a; x0b; x0c; x0d; x0e;
                  x0f; x10; x11; x12; x13; x14; x15; x16] (salt Toy.envelope)
               = Err Toy.UnwrapFailure) by reflexivity.
  split; [exact Hu|].
  pose proof (@import_join Sample.C Toy.exported "pW"
                (Toy.start Toy.forgetful) (salt Toy.envelope) [x30; x17]
                _ eq_refl eq_refl eq_refl) as (_ & _ & _ & Hfail).
  exact (Hfail Toy.UnwrapFailure (publicKey Toy.envelope) Hu eq_refl).
Defined.

Lemma generate_failures_witness :
  @generate Sample.starved (@mkState Sample.starved Toy.forgetful [])
  = (Err Toy.GenerationFailure,
     @mkState Sample.starved (Toy.mkWorld None 23 false) [],
     [@EvGetRandomValues Sample.starved 16;
      EvGenerateKey generate_algorithm true generate_usages]).
Proof.
  exact (proj2 (@generate_failures Sample.starved
                  (@mkState Sample.starved Toy.forgetful []))
           _ _ Toy.GenerationFailure _ eq_refl eq_refl).
Defined.

Lemma clear_fields_fixed_witness :
  result_of (@export Sample.C 0 None (Toy.holding Toy.mindful))
    = Ok Sample.recalled
  /\ Rec.p Toy.exported = Rec.p Sample.recalled
  /\ Rec.s Toy.exported = Rec.s Sample.recalled.
Proof.
  split; [reflexivity|].
  refine (@clear_fields_fixed Sample.C 0 Toy.envelope
            (Some "pw") (state_after Sample.generated) Toy.exported _ _
            None (Toy.holding Toy.mindful) Sample.recalled _ _ _ _ _ _);
    reflexivity.
Defined.

Lemma reimport_round_trip_witness :
  Sample.importing
    = (Ok 0, state_after Sample.importing, calls_of Sample.importing)
  /\ Sample.reexporting
     = (Ok Sample.reexported, state_after Sample.reexporting,
        calls_of Sample.reexporting)
  /\ exists first l2 st4 calls4 second spki,
       heap (state_after Sample.importing) !! 0 = Some first
       /\ @import Sample.C Sample.reexported (Some "new")
                  (state_after Sample.reexporting)
          = (Ok l2, st4, calls4)
       /\ heap st4 !! l2 = Some second
       /\ salt second = salt first
       /\ Toy.exportKey "spki" (publicKey first) = Ok spki
       /\ Toy.exportKey "spki" (publicKey second) = Ok spki
       /\ Toy.usages (publicKey second) = Toy.usages (publicKey first)
       /\ decrypts_alike Sample.C (privateKey second) (privateKey first).
Proof.
  assert (Hi : Sample.importing
               = (Ok 0, state_after Sample.importing,
                  calls_of Sample.importing)) by reflexivity.
  assert (Hx : Sample.reexporting
               = (Ok Sample.reexported, state_after Sample.reexporting,
                  calls_of Sample.reexporting)) by reflexivity.
  split; [exact Hi|]. split; [exact Hx|].
  exact (@reimport_round_trip Sample.C ToyLaws.hex_inverse_holds
           ToyLaws.key_attributes_hold ToyLaws.spki_round_trip_holds
           ToyLaws.wrap_round_trip_holds Toy.exported (Some "pw") _ _ _ _
           "new" _ _ _ (state_after Sample.reexporting) Hi Hx).
Defined.

Lemma export_after_import_witness :
  Sample.importing
    = (Ok 0, state_after Sample.importing, calls_of Sample.importing)
  /\ Sample.reexporting
     = (Ok Sample.reexported, state_after Sample.reexporting,
        calls_of Sample.reexporting)
  /\ Toy.decode (Rec.s Sample.reexported) = Toy.decode (Rec.s Toy.exported).
Proof.
  assert (Hi : Sample.importing
               = (Ok 0, state_after Sample.importing,
                  calls_of Sample.importing)) by reflexivity.
  assert (Hx : Sample.reexporting
               = (Ok Sample.reexported, state_after Sample.reexporting,
                  calls_of Sample.reexporting)) by reflexivity.
  split; [exact Hi|]. split; [exact Hx|].
  exact (@export_after_import Sample.C ToyLaws.hex_inverse_holds
           Toy.exported (Some "pw") _ _ _ _ (Some "new") _ _ _ Hi Hx).
Defined.

Lemma no_partial_envelope_witness :
  result_of (@generate Sample.starved
               (@mkState Sample.starved Toy.forgetful []))
    = Err Toy.GenerationFailure
  /\ heap (state_after (@generate Sample.starved
                          (@mkState Sample.starved Toy.forgetful [])))
     = []
  /\ exists env,
       heap (state_after (@import Sample.C Toy.exported (Some "pw")
                            (@mkState Sample.C Toy.forgetful
                               [Sample.short_envelope])))
       = [Sample.short_envelope] ++ [env]
       /\ heap (state_after (@import Sample.C Toy.exported (Some "pw")
                               (@mkState Sample.C Toy.forgetful
                                  [Sample.short_envelope]))) !! 1
          = Some env.
Proof.
  assert (He : result_of (@generate Sample.starved
                            (@mkState Sample.starved Toy.forgetful []))
               = Err Toy.GenerationFailure) by reflexivity.
  split; [exact He|]. split.
  - exact (proj1 (@no_partial_envelope Sample.starved
                    (@mkState Sample.starved Toy.forgetful []))
             Toy.GenerationFailure He).
  - exact (proj2 (proj2 (proj2 (proj2
             (@no_partial_envelope Sample.C
                (@mkState Sample.C Toy.forgetful [Sample.short_envelope]))))
             Toy.exported (Some "pw") 1 eq_refl)).
Defined.
